(** * Automated YouTube Studio: scene store, render and publish workflow

    A shallow embedding of the client page (scene factory, scene store
    handlers, publish form, render and submit handlers) and of the
    server route [/api/youtube/upload], with the properties the
    specification states about them. *)

From Stdlib Require Import List ZArith NArith Bool String Ascii Lia.
From Stdlib Require Import DecimalString PrimFloat.
Import ListNotations.

Set Implicit Arguments.

(** ** JavaScript strings

    A JavaScript string is a sequence of UTF-16 code units.  Literals of
    the source are plain ASCII and are written with [lit]. *)
Module Js.

Definition code_unit := N.
Definition jsstring := list code_unit.

Definition lit (s : string) : jsstring :=
  map N_of_ascii (list_ascii_of_string s).

Fixpoint eqb (a b : jsstring) : bool :=
  match a, b with
  | [], [] => true
  | x :: a', y :: b' => N.eqb x y && eqb a' b'
  | _, _ => false
  end.

(** Truthiness of a string value: only the empty string is falsy. *)
Definition truthy (s : jsstring) : bool :=
  match s with [] => false | _ :: _ => true end.

(** [WhiteSpace] and [LineTerminator] code points of ECMAScript, the
    ones [String.prototype.trim] strips. *)
Definition is_space (c : code_unit) : bool :=
  ((9 <=? c) && (c <=? 13) || (c =? 32) || (c =? 160) || (c =? 5760)
   || (8192 <=? c) && (c <=? 8202) || (c =? 8232) || (c =? 8233)
   || (c =? 8239) || (c =? 8287) || (c =? 12288) || (c =? 65279))%N.

Fixpoint trimStart (s : jsstring) : jsstring :=
  match s with
  | [] => []
  | c :: s' => if is_space c then trimStart s' else s
  end.

Definition trimEnd (s : jsstring) : jsstring := rev (trimStart (rev s)).

Definition trim (s : jsstring) : jsstring := trimEnd (trimStart s).

(** [s.split(sep)] for a separator of one code unit: the pieces between
    the occurrences of [sep], empty pieces included; the empty string
    gives one empty piece. *)
Fixpoint split (sep : code_unit) (s : jsstring) : list jsstring :=
  match s with
  | [] => [[]]
  | c :: s' =>
      if N.eqb c sep then [] :: split sep s'
      else match split sep s' with
           | [] => [[c]]
           | p :: ps => (c :: p) :: ps
           end
  end.

(** [pieces.join(sep)] *)
Fixpoint join (sep : jsstring) (pieces : list jsstring) : jsstring :=
  match pieces with
  | [] => []
  | [p] => p
  | p :: rest => p ++ sep ++ join sep rest
  end.

Definition comma : code_unit := 44%N.

(** [a || b] on strings. *)
Definition or_else (a b : jsstring) : jsstring :=
  if truthy a then a else b.

(** A thrown value: an [Error] object with its message, or anything else. *)
Inductive thrown :=
| Error (message : jsstring)
| NotAnError.

(** [error instanceof Error ? error.message : fallback] *)
Definition message_or (e : thrown) (fallback : jsstring) : jsstring :=
  match e with
  | Error m => m
  | NotAnError => fallback
  end.

End Js.

Import Js.

Declare Scope js_scope.
Delimit Scope js_scope with js.
Notation "` s" := (lit s%string) (at level 1, format "` s") : js_scope.
Local Open Scope js_scope.

(** ** The client page *)
Module Page.

(** *** Data *)

Definition color_pair := (jsstring * jsstring)%type.

(** A scene.  [duration] is a number of whole seconds: the factory sets
    6 and the range input of the editor gives integers. *)
Record Scene := {
  id : jsstring;
  title : jsstring;
  narration : jsstring;
  duration : Z;
  gradient : color_pair;
  emphasis : option jsstring
}.

Record GradientOption := {
  name : jsstring;
  value : color_pair
}.

Definition gradientOptions : list GradientOption :=
  [ {| name := `"Sky Surge"; value := (`"#2563eb", `"#9333ea") |};
    {| name := `"Sunset Glow"; value := (`"#f97316", `"#f43f5e") |};
    {| name := `"Aurora Mist"; value := (`"#22d3ee", `"#6366f1") |};
    {| name := `"Forest Haze"; value := (`"#0ea5e9", `"#22c55e") |};
    {| name := `"Neon Bloom"; value := (`"#facc15", `"#ec4899") |};
    {| name := `"Deep Space"; value := (`"#0f172a", `"#312e81") |} ].

Definition defaultTopic : jsstring :=
  `"Automating YouTube Videos with AI Assistants".

Definition minDuration : Z := 4.
Definition maxDuration : Z := 20.

Definition defaultDescription (topic : jsstring) : jsstring :=
  `"Explore how to build an automated pipeline for YouTube videos around "
  ++ [34%N] ++ topic ++ [34%N]
  ++ `". This guide shows how to script, assemble, and ship production-ready content without manual editing.".

Record YoutubeFormState := {
  form_title : jsstring;
  description : jsstring;
  tags : list jsstring;
  privacyStatus : jsstring;
  clientId : jsstring;
  clientSecret : jsstring;
  refreshToken : jsstring;
  status : jsstring
}.

(** [keyof YoutubeFormState] *)
Inductive FormKey :=
| KTitle | KDescription | KTags | KPrivacyStatus
| KClientId | KClientSecret | KRefreshToken | KStatus.

Definition Blob := list Byte.byte.
Definition File := list Byte.byte.

Record Composition := {
  comp_scenes : list Scene;
  width : Z;
  height : Z;
  fps : Z;
  comp_backgroundAudio : option File
}.

Record RenderResult := {
  url : jsstring;
  blob : Blob
}.

(** The request body of the submit handler: the form and the encoded
    video. *)
Record UploadPayload := {
  payload_form : YoutubeFormState;
  videoBase64 : jsstring
}.

(** What the page reads from the answer of [/api/youtube/upload]:
    [response.ok] and the fields [error] and [videoUrl] of its JSON body. *)
Record ResponseBody := {
  body_error : option jsstring;
  body_videoUrl : option jsstring
}.

Record Response := {
  ok : bool;
  json : thrown + ResponseBody
}.

Record UploadResult := {
  success : bool;
  message : jsstring;
  result_url : option jsstring
}.

(** The state hooks of [Page]. *)
Record PageState := {
  topic : jsstring;
  scenes : list Scene;
  backgroundAudio : option File;
  videoUrl : option jsstring;
  videoBlob : option Blob;
  youtubeForm : YoutubeFormState;
  isUploading : bool;
  uploadResult : option UploadResult
}.

(** *** The environment

    What the page takes from the browser, the video composer hook and
    the network.  [fresh_id n] and [random_slot n] are the results of
    the [n]-th draw of [makeId()] and of
    [Math.floor(Math.random() * gradientOptions.length)]. *)
Class Host := {
  toLowerCase : jsstring -> jsstring;
  fresh_id : nat -> jsstring;
  random_slot : nat -> nat;
  readAsDataURL : Blob -> thrown + jsstring;
  generate : Composition -> thrown + RenderResult;
  fetch_upload : UploadPayload -> thrown + Response
}.

(** *** Random draws: a state monad over the number of draws made *)

Definition Rand (A : Type) : Type := nat -> A * nat.

Definition rand_ret {A} (a : A) : Rand A := fun n => (a, n).

Definition rand_bind {A B} (m : Rand A) (k : A -> Rand B) : Rand B :=
  fun n => let (a, n') := m n in k a n'.

Declare Scope rand_scope.
Delimit Scope rand_scope with rand.
Notation "x <- m ;; k" := (rand_bind m (fun x => k))
  (at level 61, m at next level, right associativity) : rand_scope.

Section Factory.
Context {H : Host}.

Definition makeId : Rand jsstring := fun n => (fresh_id n, S n).

(** [gradientOptions[Math.floor(Math.random() * gradientOptions.length)].value];
    [Math.random()] lies in [0, 1), so the index is below the length. *)
Definition randomGradient : Rand color_pair :=
  fun n =>
    (value (nth (random_slot n mod List.length gradientOptions) gradientOptions
                {| name := []; value := ([], []) |}),
     S n).

(** The default of [gradient] is evaluated when the argument is absent,
    before the body draws the id. *)
Definition createScene (title narration : jsstring)
    (emphasis : option jsstring) (gradient : option color_pair) : Rand Scene :=
  (g <- match gradient with
        | Some g => rand_ret g
        | None => randomGradient
        end ;;
   i <- makeId ;;
   rand_ret {| id := i; title := title; narration := narration;
               duration := 6; gradient := g; emphasis := emphasis |})%rand.

Definition buildScenesFromTopic (topic : jsstring) : Rand (list Scene) :=
  let focus := or_else (trim topic) defaultTopic in
  (s1 <- createScene `"Hook"
          (`"Why spend days editing when " ++ focus
           ++ `" lets you storyboard, narrate, and publish while you sleep?")
          (Some `"Promise: by the end you'll have a reusable autopilot.") None ;;
   s2 <- createScene `"System Overview"
          `"We break down the automated studio into three loops: ideation, production, and publishing. Each loop is orchestrated by workflows that watch for new ideas then generate finished episodes."
          (Some `"Visualize the pipeline as an assembly line from prompt to publish.") None ;;
   s3 <- createScene `"Asset Generation"
          `"Scripts, narration, and visuals are produced through composable agents. We chunk the narrative, batch-render slides, and synthesize voice overs so that the heavy lifting is done without editors."
          (Some `"Tip: reuse templates per content pillar to stay on brand.") None ;;
   s4 <- createScene `"Video Assembly"
          `"Slides and audio are merged with FFmpeg on-demand, yielding high quality MP4 files ready for upload. Effects like zooms or overlays can be added through programmable filters."
          (Some `"Result: deterministic renders with predictable timing.") None ;;
   s5 <- createScene `"Deployment"
          `"Finally the pipeline pushes metadata, thumbnails, and the compiled video to YouTube through their API. Schedule, tag, and publish in a single request while analytics feeds future iterations."
          (Some `"Close with a call-to-action that matches your funnel.") None ;;
   s6 <- createScene `"Call To Action"
          (`"Start automating your " ++ toLowerCase focus
           ++ `" today and reinvest saved hours into strategy and community.")
          (Some `"Subscribe for more build logs and automation recipes.") None ;;
   rand_ret [s1; s2; s3; s4; s5; s6])%rand.

End Factory.

Definition initialYoutubeForm (topic : jsstring) : YoutubeFormState :=
  {| form_title := topic;
     description := defaultDescription topic;
     tags := [`"automation"; `"youtube"; `"ai workflow"];
     privacyStatus := `"private";
     clientId := [];
     clientSecret := [];
     refreshToken := [];
     status := [] |}.

Definition isYoutubeFormValid (form : YoutubeFormState) (hasVideo : bool) : bool :=
  hasVideo
  && truthy (clientId form)
  && truthy (clientSecret form)
  && truthy (refreshToken form)
  && truthy (form_title form)
  && truthy (description form).

(** [scenes.reduce((sum, scene) => sum + Math.max(scene.duration, minDuration), 0)] *)
Definition totalRuntime (scenes : list Scene) : Z :=
  fold_left (fun sum scene => (sum + Z.max (duration scene) minDuration)%Z) scenes 0%Z.

(** *** Handlers: state, effects and exceptions

    A handler runs on a [Machine]: the values of the state hooks, the
    number of random draws made so far, and the trace of what the
    handler did, in program order (state setter calls, dialogs, console
    output, calls to the composer and to the network). *)

Inductive event :=
| SetScenes (next : list Scene)
| SetVideoUrl (next : option jsstring)
| SetVideoBlob (next : option Blob)
| SetYoutubeForm (next : YoutubeFormState)
| SetIsUploading (next : bool)
| SetUploadResult (next : option UploadResult)
| PreventDefault
| Alert (text : jsstring)
| ConsoleError (error : thrown)
| CallGenerate (composition : Composition)
| CallFetch (payload : UploadPayload).

Record Machine := {
  page : PageState;
  draws : nat;
  trace : list event
}.

Definition Eff (A : Type) : Type := Machine -> (thrown + A) * Machine.

Definition ret {A} (a : A) : Eff A := fun m => (inr a, m).

Definition throw {A} (e : thrown) : Eff A := fun m => (inl e, m).

Definition bind {A B} (c : Eff A) (k : A -> Eff B) : Eff B :=
  fun m =>
    match c m with
    | (inr a, m') => k a m'
    | (inl e, m') => (inl e, m')
    end.

(** [try { body } catch (error) { handler }] *)
Definition try_catch {A} (body : Eff A) (handler : thrown -> Eff A) : Eff A :=
  fun m =>
    match body m with
    | (inr a, m') => (inr a, m')
    | (inl e, m') => handler e m'
    end.

(** [try { body } finally { final }] *)
Definition try_finally {A} (body : Eff A) (final : Eff unit) : Eff A :=
  fun m =>
    match body m with
    | (r, m') =>
        match final m' with
        | (inr _, m'') => (r, m'')
        | (inl e, m'') => (inl e, m'')
        end
    end.

Declare Scope eff_scope.
Delimit Scope eff_scope with eff.
Notation "x <- c ;; k" := (bind c (fun x => k))
  (at level 61, c at next level, right associativity) : eff_scope.
Notation "c ;; k" := (bind c (fun _ => k))
  (at level 61, right associativity) : eff_scope.

(** [await promise]: the value the promise resolves to, or the throw of
    the value it rejects with. *)
Definition await {A} (promise : thrown + A) : Eff A := fun m => (promise, m).

Definition get_page : Eff PageState := fun m => (inr (page m), m).

Definition emit (e : event) : Eff unit :=
  fun m => (inr tt, {| page := page m; draws := draws m; trace := trace m ++ [e] |}).

Definition modify_page (f : PageState -> PageState) : Eff unit :=
  fun m => (inr tt, {| page := f (page m); draws := draws m; trace := trace m |}).

Definition lift_rand {A} (r : Rand A) : Eff A :=
  fun m =>
    let (a, n) := r (draws m) in
    (inr a, {| page := page m; draws := n; trace := trace m |}).

Definition with_scenes (v : list Scene) (p : PageState) : PageState :=
  {| topic := topic p; scenes := v; backgroundAudio := backgroundAudio p;
     videoUrl := videoUrl p; videoBlob := videoBlob p;
     youtubeForm := youtubeForm p; isUploading := isUploading p;
     uploadResult := uploadResult p |}.

Definition with_videoUrl (v : option jsstring) (p : PageState) : PageState :=
  {| topic := topic p; scenes := scenes p; backgroundAudio := backgroundAudio p;
     videoUrl := v; videoBlob := videoBlob p;
     youtubeForm := youtubeForm p; isUploading := isUploading p;
     uploadResult := uploadResult p |}.

Definition with_videoBlob (v : option Blob) (p : PageState) : PageState :=
  {| topic := topic p; scenes := scenes p; backgroundAudio := backgroundAudio p;
     videoUrl := videoUrl p; videoBlob := v;
     youtubeForm := youtubeForm p; isUploading := isUploading p;
     uploadResult := uploadResult p |}.

Definition with_youtubeForm (v : YoutubeFormState) (p : PageState) : PageState :=
  {| topic := topic p; scenes := scenes p; backgroundAudio := backgroundAudio p;
     videoUrl := videoUrl p; videoBlob := videoBlob p;
     youtubeForm := v; isUploading := isUploading p;
     uploadResult := uploadResult p |}.

Definition with_isUploading (v : bool) (p : PageState) : PageState :=
  {| topic := topic p; scenes := scenes p; backgroundAudio := backgroundAudio p;
     videoUrl := videoUrl p; videoBlob := videoBlob p;
     youtubeForm := youtubeForm p; isUploading := v;
     uploadResult := uploadResult p |}.

Definition with_uploadResult (v : option UploadResult) (p : PageState) : PageState :=
  {| topic := topic p; scenes := scenes p; backgroundAudio := backgroundAudio p;
     videoUrl := videoUrl p; videoBlob := videoBlob p;
     youtubeForm := youtubeForm p; isUploading := isUploading p;
     uploadResult := v |}.

(** The setters of the state hooks.  A setter given an updater function
    applies it to the value the hook holds. *)
Definition setScenes (f : list Scene -> list Scene) : Eff unit :=
  (p <- get_page ;;
   let next := f (scenes p) in
   emit (SetScenes next) ;; modify_page (with_scenes next))%eff.

Definition setVideoUrl (v : option jsstring) : Eff unit :=
  (emit (SetVideoUrl v) ;; modify_page (with_videoUrl v))%eff.

Definition setVideoBlob (v : option Blob) : Eff unit :=
  (emit (SetVideoBlob v) ;; modify_page (with_videoBlob v))%eff.

Definition setYoutubeForm (f : YoutubeFormState -> YoutubeFormState) : Eff unit :=
  (p <- get_page ;;
   let next := f (youtubeForm p) in
   emit (SetYoutubeForm next) ;; modify_page (with_youtubeForm next))%eff.

Definition setIsUploading (v : bool) : Eff unit :=
  (emit (SetIsUploading v) ;; modify_page (with_isUploading v))%eff.

Definition setUploadResult (v : option UploadResult) : Eff unit :=
  (emit (SetUploadResult v) ;; modify_page (with_uploadResult v))%eff.

Definition alert (text : jsstring) : Eff unit := emit (Alert text).

Definition console_error (e : thrown) : Eff unit := emit (ConsoleError e).

(** [{ ...prev, [key]: value }] for a string [value].  The key [tags]
    never gets here: [youtubeChange] handles it first. *)
Definition set_field (key : FormKey) (v : jsstring) (prev : YoutubeFormState)
  : YoutubeFormState :=
  {| form_title := match key with KTitle => v | _ => form_title prev end;
     description := match key with KDescription => v | _ => description prev end;
     tags := tags prev;
     privacyStatus := match key with KPrivacyStatus => v | _ => privacyStatus prev end;
     clientId := match key with KClientId => v | _ => clientId prev end;
     clientSecret := match key with KClientSecret => v | _ => clientSecret prev end;
     refreshToken := match key with KRefreshToken => v | _ => refreshToken prev end;
     status := match key with KStatus => v | _ => status prev end |}.

(** [{ ...prev, tags: v }] *)
Definition set_tags (v : list jsstring) (prev : YoutubeFormState) : YoutubeFormState :=
  {| form_title := form_title prev; description := description prev;
     tags := v; privacyStatus := privacyStatus prev;
     clientId := clientId prev; clientSecret := clientSecret prev;
     refreshToken := refreshToken prev; status := status prev |}.

Definition is_key_tags (key : FormKey) : bool :=
  match key with KTags => true | _ => false end.

Definition is_key_privacyStatus (key : FormKey) : bool :=
  match key with KPrivacyStatus => true | _ => false end.

(** The updater that [handleYoutubeChange] hands to [setYoutubeForm]. *)
Definition youtubeChange (key : FormKey) (value : jsstring)
    (prev : YoutubeFormState) : YoutubeFormState :=
  if is_key_tags key then
    set_tags (filter truthy (map trim (split comma value))) prev
  else if is_key_privacyStatus key
          && (eqb value `"public" || eqb value `"private" || eqb value `"unlisted")
  then set_field KPrivacyStatus value prev
  else set_field key value prev.

(** [Partial<Scene>]: the fields an update carries. *)
Record ScenePatch := {
  patch_id : option jsstring;
  patch_title : option jsstring;
  patch_narration : option jsstring;
  patch_duration : option Z;
  patch_gradient : option color_pair;
  patch_emphasis : option (option jsstring)
}.

Definition or_keep {A} (update : option A) (current : A) : A :=
  match update with
  | Some v => v
  | None => current
  end.

(** [{ ...scene, ...updates }] *)
Definition merge (scene : Scene) (updates : ScenePatch) : Scene :=
  {| id := or_keep (patch_id updates) (id scene);
     title := or_keep (patch_title updates) (title scene);
     narration := or_keep (patch_narration updates) (narration scene);
     duration := or_keep (patch_duration updates) (duration scene);
     gradient := or_keep (patch_gradient updates) (gradient scene);
     emphasis := or_keep (patch_emphasis updates) (emphasis scene) |}.

Definition updateScene (i : jsstring) (updates : ScenePatch) : Eff unit :=
  setScenes (map (fun scene => if eqb (id scene) i then merge scene updates else scene)).

Definition with_backgroundAudio (v : option File) (p : PageState) : PageState :=
  {| topic := topic p; scenes := scenes p; backgroundAudio := v;
     videoUrl := videoUrl p; videoBlob := videoBlob p;
     youtubeForm := youtubeForm p; isUploading := isUploading p;
     uploadResult := uploadResult p |}.

(** The setter of the audio hook; the trace does not record it. *)
Definition setBackgroundAudio (v : option File) : Eff unit :=
  modify_page (with_backgroundAudio v).

(** [files] is [event.target.files]: a list of files or [null]. *)
Definition handleAudioUpload (files : option (list File)) : Eff unit :=
  match or_keep files [] with
  | file :: _ => setBackgroundAudio (Some file)
  | [] => ret tt
  end.

(** What the page renders from its state: [!!videoBlob], the [disabled]
    of the submit button and the [value] of the tags input. *)
Definition hasVideo (p : PageState) : bool :=
  match videoBlob p with
  | Some _ => true
  | None => false
  end.

Definition submitDisabled (p : PageState) : bool :=
  negb (isYoutubeFormValid (youtubeForm p) (hasVideo p)) || isUploading p.

Definition tagsInputValue (p : PageState) : jsstring :=
  join `", " (tags (youtubeForm p)).

Section Handlers.
Context {H : Host}.

Definition call_generate (c : Composition) : Eff RenderResult :=
  (emit (CallGenerate c) ;;
   match generate c with
   | inl e => throw e
   | inr r => ret r
   end)%eff.

Definition call_fetch (p : UploadPayload) : Eff Response :=
  (emit (CallFetch p) ;;
   match fetch_upload p with
   | inl e => throw e
   | inr r => ret r
   end)%eff.

Definition blobToBase64 (b : Blob) : thrown + jsstring :=
  match readAsDataURL b with
  | inl e => inl e
  | inr result =>
      match nth_error (split comma result) 1 with
      | Some payload =>
          if truthy payload then inr payload
          else inl (Error `"Failed to encode video payload.")
      | None => inl (Error `"Failed to encode video payload.")
      end
  end.

Definition regenerateScenes : Eff unit :=
  (p <- get_page ;;
   nextScenes <- lift_rand (buildScenesFromTopic (topic p)) ;;
   setScenes (fun _ => nextScenes) ;;
   setYoutubeForm (fun _ => initialYoutubeForm (topic p)))%eff.

Definition handleAddScene : Eff unit :=
  (s <- lift_rand
          (createScene `"New Scene"
             `"Refine this narration to keep the narrative tight and insightful."
             (Some `"Adjust duration and visuals to fit the rhythm.") None) ;;
   setScenes (fun prev => prev ++ [s]))%eff.

Definition handleDuplicateScene (scene : Scene) : Eff unit :=
  (i <- lift_rand makeId ;;
   setScenes (fun prev =>
     prev ++ [ {| id := i; title := title scene ++ `" (extended)";
                  narration := narration scene; duration := duration scene;
                  gradient := gradient scene; emphasis := emphasis scene |} ]))%eff.

Definition handleRemoveScene (i : jsstring) : Eff unit :=
  setScenes (fun prev => filter (fun scene => negb (eqb (id scene) i)) prev).

Definition beginGeneration : Eff unit :=
  (p <- get_page ;;
   setVideoUrl None ;;
   setVideoBlob None ;;
   let composition :=
     {| comp_scenes := scenes p; width := 1280; height := 720; fps := 30;
        comp_backgroundAudio := backgroundAudio p |} in
   try_catch
     (result <- call_generate composition ;;
      setVideoUrl (Some (url result)) ;;
      setVideoBlob (Some (blob result)))
     (fun error =>
        console_error error ;;
        alert `"Video rendering failed. Check console for details."))%eff.

Definition handleYoutubeChange (key : FormKey) (value : jsstring) : Eff unit :=
  setYoutubeForm (youtubeChange key value).

Definition submitYoutubeUpload : Eff unit :=
  (p <- get_page ;;
   emit PreventDefault ;;
   match videoBlob p with
   | None => alert `"Generate a video first."
   | Some videoBlob =>
       setIsUploading true ;;
       setUploadResult None ;;
       try_finally
         (try_catch
            (encoded <- await (blobToBase64 videoBlob) ;;
             let payload :=
               {| payload_form := youtubeForm p; videoBase64 := encoded |} in
             response <- call_fetch payload ;;
             body <- await (json response) ;;
             if negb (ok response) then
               throw (Error match body_error body with
                            | Some e => e
                            | None => `"Unable to upload video."
                            end)
             else
               setUploadResult
                 (Some {| success := true;
                          message := `"Video uploaded successfully.";
                          result_url := body_videoUrl body |}))
            (fun error =>
               setUploadResult
                 (Some {| success := false;
                          message := message_or error `"YouTube upload failed.";
                          result_url := None |})))
         (setIsUploading false)
   end)%eff.

End Handlers.

End Page.

(** ** The server route [/api/youtube/upload] *)
Module Route.

(** A value produced by [request.json()]. *)
#[warnings="-register-all"]
Inductive json :=
| JNull
| JBool (b : bool)
| JNumber (x : float)
| JString (s : jsstring)
| JArray (items : list json)
| JObject (members : list (jsstring * json)).

(** A property read gives a value or [undefined] ([None]). *)
Definition truthy (v : option json) : bool :=
  match v with
  | None => false
  | Some JNull => false
  | Some (JBool b) => b
  | Some (JNumber x) => negb (PrimFloat.eqb x 0%float || PrimFloat.is_nan x)
  | Some (JString s) => Js.truthy s
  | Some (JArray _) => true
  | Some (JObject _) => true
  end.

Fixpoint lookup (key : jsstring) (members : list (jsstring * json)) : option json :=
  match members with
  | [] => None
  | (k, v) :: rest => if Js.eqb k key then Some v else lookup key rest
  end.

(** [data.key] for one of the field names of [UploadRequest], on a
    value that passed the [typeof data === "object"] test: an array has
    no such property. *)
Definition field (data : json) (key : jsstring) : option json :=
  match data with
  | JObject members => lookup key members
  | _ => None
  end.

(** [typeof data === "object"] *)
Definition typeof_object (data : json) : bool :=
  match data with
  | JNull | JArray _ | JObject _ => true
  | JBool _ | JNumber _ | JString _ => false
  end.

(** A destructuring default applies to [undefined] only. *)
Definition default_to (d : json) (v : option json) : json :=
  match v with
  | None => d
  | Some x => x
  end.

Record UploadRequest := {
  videoBase64 : json;
  title : json;
  description : json;
  tags : json;
  privacyStatus : json;
  clientId : json;
  clientSecret : json;
  refreshToken : json
}.

Definition MAX_UPLOAD_SIZE_MB : N := 256.

Definition Buffer := list Byte.byte.

(** The arguments of [youtube.videos.insert], with the credentials the
    OAuth2 client was built from. *)
Record InsertCall := {
  auth_clientId : json;
  auth_clientSecret : json;
  auth_refreshToken : json;
  snippet_title : json;
  snippet_description : json;
  snippet_tags : option json;
  status_privacyStatus : json;
  media_body : Buffer
}.

(** What the route takes from Node and from the upload service:
    [Buffer.from(value, "base64")], and [youtube.videos.insert], which
    answers with [data.id] or throws. *)
Class Node := {
  buffer_from_base64 : json -> thrown + Buffer;
  videos_insert : InsertCall -> thrown + option jsstring
}.

Inductive effect :=
| ConsoleError (label : jsstring) (error : thrown)
| VideosInsert (call : InsertCall).

Inductive ResponseJson :=
| ErrorBody (error : jsstring)
| VideoBody (videoId : option jsstring) (videoUrl : option jsstring).

Record HttpResponse := {
  status : Z;
  body : ResponseJson
}.

Definition raise (text : string) {A} : thrown + A := inl (Error (lit text)).

Definition and_then {A B} (r : thrown + A) (k : A -> thrown + B) : thrown + B :=
  match r with
  | inl e => inl e
  | inr a => k a
  end.

Declare Scope exc_scope.
Delimit Scope exc_scope with exc.
Notation "x <- r ;; k" := (and_then r (fun x => k))
  (at level 61, r at next level, right associativity) : exc_scope.

(** [if (!v) throw new Error(text)], giving the value that passed. *)
Definition required (v : option json) (text : string) : thrown + json :=
  match v with
  | Some x => if truthy v then inr x else raise text
  | None => raise text
  end.

Definition parseBody (data : json) : thrown + UploadRequest :=
  if negb (truthy (Some data)) || negb (typeof_object data) then
    raise "Invalid payload."
  else
    let tags := default_to (JArray []) (field data `"tags") in
    let privacyStatus := default_to (JString `"private") (field data `"privacyStatus") in
    (videoBase64 <- required (field data `"videoBase64") "Missing video payload." ;;
     title <- required (field data `"title") "Missing title." ;;
     description <- required (field data `"description") "Missing description." ;;
     clientId <- required (field data `"clientId") "OAuth credentials are required." ;;
     clientSecret <- required (field data `"clientSecret") "OAuth credentials are required." ;;
     refreshToken <- required (field data `"refreshToken") "OAuth credentials are required." ;;
     inr {| videoBase64 := videoBase64; title := title; description := description;
            tags := tags; privacyStatus := privacyStatus;
            clientId := clientId; clientSecret := clientSecret;
            refreshToken := refreshToken |})%exc.

(** [payload.tags?.slice(0, 500)]: arrays and strings have [slice];
    [null] short-circuits to [undefined]; on any other value the call
    throws a [TypeError] (with the message of V8). *)
Definition slice_tags (tags : json) : thrown + option json :=
  match tags with
  | JNull => inr None
  | JArray items => inr (Some (JArray (firstn 500 items)))
  | JString s => inr (Some (JString (firstn 500 s)))
  | _ => raise "payload.tags?.slice is not a function"
  end.

(** [payload.privacyStatus ?? "private"] *)
Definition nullish_private (v : json) : json :=
  match v with
  | JNull => JString `"private"
  | _ => v
  end.

Section Handler.
Context {node : Node}.

(** [sizeMb > MAX_UPLOAD_SIZE_MB] with [sizeMb = byteLength / (1024 * 1024)]:
    the division by a power of two is exact, so the test is the
    comparison of the byte length with 256 * 1024 * 1024. *)
Definition decodeVideo (base64 : json) : thrown + Buffer :=
  match buffer_from_base64 base64 with
  | inl e => inl e
  | inr buffer =>
      if (MAX_UPLOAD_SIZE_MB * (1024 * 1024) <? N.of_nat (List.length buffer))%N then
        inl (Error (`"Video too large. Limit is "
                    ++ lit (NilEmpty.string_of_uint (N.to_uint MAX_UPLOAD_SIZE_MB))
                    ++ `"MB."))
      else inr buffer
  end.

(** The [try] block up to the call of the upload service. *)
Definition prepare (request_json : thrown + json) : thrown + InsertCall :=
  (data <- request_json ;;
   payload <- parseBody data ;;
   videoBuffer <- decodeVideo (videoBase64 payload) ;;
   sliced <- slice_tags (tags payload) ;;
   inr {| auth_clientId := clientId payload;
          auth_clientSecret := clientSecret payload;
          auth_refreshToken := refreshToken payload;
          snippet_title := title payload;
          snippet_description := description payload;
          snippet_tags := sliced;
          status_privacyStatus := nullish_private (privacyStatus payload);
          media_body := videoBuffer |})%exc.

(** The whole [try] block: the response, or the thrown value, with the
    calls made to the upload service. *)
Definition upload (request_json : thrown + json)
  : (thrown + HttpResponse) * list effect :=
  match prepare request_json with
  | inl e => (inl e, [])
  | inr call =>
      match videos_insert call with
      | inl e => (inl e, [VideosInsert call])
      | inr videoId =>
          let videoUrl :=
            match videoId with
            | Some i =>
                if Js.truthy i
                then Some (`"https://www.youtube.com/watch?v=" ++ i)
                else None
            | None => None
            end in
          (inr {| status := 200; body := VideoBody videoId videoUrl |},
           [VideosInsert call])
      end
  end.

Definition POST (request_json : thrown + json) : HttpResponse * list effect :=
  match upload request_json with
  | (inr response, log) => (response, log)
  | (inl error, log) =>
      ({| status := 400;
          body := ErrorBody (message_or error `"Unknown error occurred.") |},
       log ++ [ConsoleError `"YouTube upload failed" error])
  end.

End Handler.

End Route.

(** ** The page and the route together *)
Module Wire.

Import Page.

(** The value [request.json()] gives the route for the body
    [JSON.stringify(payload)] of the page: the properties of the form,
    then [videoBase64]. *)
Definition payload_json (p : UploadPayload) : Route.json :=
  let form := payload_form p in
  Route.JObject
    [ (`"title", Route.JString (form_title form));
      (`"description", Route.JString (description form));
      (`"tags", Route.JArray (map Route.JString (tags form)));
      (`"privacyStatus", Route.JString (privacyStatus form));
      (`"clientId", Route.JString (clientId form));
      (`"clientSecret", Route.JString (clientSecret form));
      (`"refreshToken", Route.JString (refreshToken form));
      (`"status", Route.JString (status form));
      (`"videoBase64", Route.JString (Page.videoBase64 p)) ].

(** What the page reads from a response of the route: [response.ok] is
    a status from 200 to 299. *)
Definition response_of (r : Route.HttpResponse) : Response :=
  {| ok := ((200 <=? Route.status r) && (Route.status r <=? 299))%Z;
     json :=
       inr match Route.body r with
           | Route.ErrorBody e =>
               {| body_error := Some e; body_videoUrl := None |}
           | Route.VideoBody _ videoUrl =>
               {| body_error := None; body_videoUrl := videoUrl |}
           end |}.

(** A host whose [fetch] reaches the route on [node] and brings its
    response back. *)
Definition served (H : Host) (node : Route.Node) : Host :=
  {| toLowerCase := @toLowerCase H;
     fresh_id := @fresh_id H;
     random_slot := @random_slot H;
     readAsDataURL := @readAsDataURL H;
     generate := @generate H;
     fetch_upload := fun p =>
       inr (response_of (fst (@Route.POST node (inr (payload_json p))))) |}.

End Wire.

(** ** The specification's wording

    Definitions that follow the words of the specification; the
    theorems below compare them with the code. *)
Module Spec.

Import Page.

(** "sum over all scenes of max(scene.duration, minDuration)" *)
Definition runtime_sum (scenes : list Scene) : Z :=
  fold_right Z.add 0%Z (map (fun scene => Z.max (duration scene) minDuration) scenes).

(** "hasArtifact AND all of clientId, clientSecret, refreshToken, title,
    description are non-empty" *)
Definition canPublish (form : YoutubeFormState) (hasArtifact : bool) : Prop :=
  hasArtifact = true
  /\ clientId form <> []
  /\ clientSecret form <> []
  /\ refreshToken form <> []
  /\ form_title form <> []
  /\ description form <> [].

(** "sending a network request" *)
Definition sends_request (t : list event) : bool :=
  existsb (fun e => match e with CallFetch _ => true | _ => false end) t.

(** "the store holds a scene identified by the id" *)
Definition identifies (i : jsstring) (scenes : list Scene) : bool :=
  existsb (fun scene => Js.eqb (id scene) i) scenes.

(** "blank or whitespace-only" *)
Definition blank (s : jsstring) : Prop := Forall (fun c => is_space c = true) s.

(** A string with white space neither at its start nor at its end. *)
Definition trimmed (s : jsstring) : Prop :=
  match s with
  | [] => True
  | c :: _ => is_space c = false /\ is_space (last s c) = false
  end.

(** [join sep pieces]: the pieces with [sep] between them. *)
Fixpoint join (sep : code_unit) (pieces : list jsstring) : jsstring :=
  match pieces with
  | [] => []
  | [p] => p
  | p :: rest => p ++ sep :: join sep rest
  end.

(** "any required field is missing from the request body" *)
Definition required_fields : list jsstring :=
  [`"videoBase64"; `"title"; `"description";
   `"clientId"; `"clientSecret"; `"refreshToken"].

Definition missing_field (data : Route.json) : Prop :=
  exists key, In key required_fields /\ Route.field data key = None.

(** "the base64-decoded video payload exceeds 256 MB" *)
Definition oversized {node : Route.Node} (data : Route.json) : Prop :=
  exists encoded buffer,
    Route.field data `"videoBase64" = Some encoded
    /\ Route.buffer_from_base64 encoded = inr buffer
    /\ (256 * 1024 * 1024 < N.of_nat (List.length buffer))%N.

Definition size_limit_message : jsstring := `"Video too large. Limit is 256MB.".

(** "calling the upload service" *)
Definition calls_upload_service (log : list Route.effect) : bool :=
  existsb (fun e => match e with Route.VideosInsert _ => true | _ => false end) log.

(** "the scenes of another id, in their order" *)
Fixpoint without (i : jsstring) (scenes : list Scene) : list Scene :=
  match scenes with
  | [] => []
  | scene :: rest =>
      if Js.eqb (id scene) i then without i rest else scene :: without i rest
  end.

(** A tag as the form stores it: not empty, without a comma, without
    white space at its ends. *)
Definition normal_tag (t : jsstring) : Prop :=
  t <> [] /\ ~ In comma t /\ trimmed t.

(** The ids of the store are pairwise different and were all drawn
    from [makeId] before. *)
Definition drawn {H : Host} (d : nat) (scene : Scene) : Prop :=
  exists k, k < d /\ id scene = fresh_id k.

Definition store_ok {H : Host} (m : Machine) : Prop :=
  NoDup (map id (scenes (page m)))
  /\ Forall (drawn (draws m)) (scenes (page m)).

(** A patch that carries nothing. *)
Definition empty_patch : ScenePatch :=
  {| patch_id := None; patch_title := None; patch_narration := None;
     patch_duration := None; patch_gradient := None; patch_emphasis := None |}.

(** [makeId] never gives the same id twice. *)
Definition unique_ids {H : Host} : Prop :=
  forall j k, fresh_id j = fresh_id k -> j = k.

(** The fields of the form the handlers of the scene store and of the
    render leave alone, and those the form handlers leave alone. *)
Definition same_publish_state (p q : PageState) : Prop :=
  youtubeForm p = youtubeForm q
  /\ isUploading p = isUploading q
  /\ uploadResult p = uploadResult q.

Definition same_video (p q : PageState) : Prop :=
  videoUrl p = videoUrl q /\ videoBlob p = videoBlob q.

(** The string a form holds under a key other than [tags]. *)
Definition get_field (key : FormKey) (form : YoutubeFormState) : jsstring :=
  match key with
  | KTitle => form_title form
  | KDescription => description form
  | KTags => []
  | KPrivacyStatus => privacyStatus form
  | KClientId => clientId form
  | KClientSecret => clientSecret form
  | KRefreshToken => refreshToken form
  | KStatus => status form
  end.

Definition key_eqb (a b : FormKey) : bool :=
  match a, b with
  | KTitle, KTitle | KDescription, KDescription | KTags, KTags
  | KPrivacyStatus, KPrivacyStatus | KClientId, KClientId
  | KClientSecret, KClientSecret | KRefreshToken, KRefreshToken
  | KStatus, KStatus => true
  | _, _ => false
  end.

(** The events of a trace that are calls of [fetch]. *)
Definition requests (t : list event) : list UploadPayload :=
  flat_map (fun e => match e with CallFetch p => [p] | _ => [] end) t.

(** The calls of the upload service in the log of the route. *)
Definition insert_calls (log : list Route.effect) : list Route.InsertCall :=
  flat_map (fun e => match e with Route.VideosInsert c => [c] | _ => [] end) log.

Definition console_errors (log : list Route.effect) : list thrown :=
  flat_map (fun e => match e with Route.ConsoleError _ x => [x] | _ => [] end) log.

End Spec.

(** ** A concrete environment and page, for the examples *)
Module Demo.

Import Page.

Definition ascii_lower (c : code_unit) : code_unit :=
  if ((65 <=? c) && (c <=? 90))%N then (c + 32)%N else c.

Definition rejected : Response :=
  {| ok := false;
     json := inr {| body_error := Some `"OAuth credentials are required.";
                    body_videoUrl := None |} |}.

Definition host : Host :=
  {| toLowerCase := map ascii_lower;
     fresh_id := fun n => `"scene-" ++ [(48 + N.of_nat n)%N];
     random_slot := fun n => n;
     readAsDataURL := fun _ => inr `"data:video/mp4;base64,AAAA";
     generate := fun _ => inr {| url := `"blob:new"; blob := [Byte.x01] |};
     fetch_upload := fun _ => inr rejected |}.

Definition intro : Scene :=
  {| id := `"intro"; title := `"Intro"; narration := `"Welcome.";
     duration := 6; gradient := (`"#2563eb", `"#9333ea"); emphasis := None |}.

Definition ghost : Scene :=
  {| id := `"ghost"; title := `"Ghost"; narration := `"Not in the store.";
     duration := 5; gradient := (`"#0f172a", `"#312e81"); emphasis := None |}.

(** A page with one scene and a rendered video; the form has the
    initial, empty credentials. *)
Definition rendered : PageState :=
  {| topic := `"  Test Topic ";
     scenes := [intro];
     backgroundAudio := None;
     videoUrl := Some `"blob:old";
     videoBlob := Some [Byte.x00];
     youtubeForm := initialYoutubeForm defaultTopic;
     isUploading := false;
     uploadResult := None |}.

(** A form with every field filled in, and the rendered page with it. *)
Definition ready_form : YoutubeFormState :=
  set_field KClientId `"id"
    (set_field KClientSecret `"secret"
       (set_field KRefreshToken `"token" (initialYoutubeForm `"Test Topic"))).

Definition ready : PageState := with_youtubeForm ready_form rendered.

(** A host whose composer fails. *)
Definition failing_host : Host :=
  {| toLowerCase := map ascii_lower;
     fresh_id := fun n => `"scene-" ++ [(48 + N.of_nat n)%N];
     random_slot := fun n => n;
     readAsDataURL := fun _ => inr `"data:video/mp4;base64,AAAA";
     generate := fun _ => inl (Error `"render crashed");
     fetch_upload := fun _ => inr rejected |}.

(** The rendered page with an audio file chosen. *)
Definition with_audio : PageState :=
  with_backgroundAudio (Some [Byte.x02]) rendered.

(** The same page before any render. *)
Definition unrendered : PageState :=
  with_videoUrl None (with_videoBlob None rendered).

Definition start (p : PageState) : Machine :=
  {| page := p; draws := 0; trace := [] |}.

(** A Node whose decoder gives one byte more than 256 MB for every
    input, and an upload service that accepts everything. *)
Definition heavy_node : Route.Node :=
  {| Route.buffer_from_base64 :=
       fun _ => inr (repeat Byte.x00 (N.to_nat (256 * 1024 * 1024 + 1)));
     Route.videos_insert := fun _ => inr (Some `"abc123") |}.

(** A Node whose decoder gives three bytes. *)
Definition light_node : Route.Node :=
  {| Route.buffer_from_base64 := fun _ => inr [Byte.x00; Byte.x00; Byte.x00];
     Route.videos_insert := fun _ => inr (Some `"abc123") |}.

(** A request body with every required field. *)
Definition complete_body : Route.json :=
  Route.JObject
    [ (`"videoBase64", Route.JString `"AAAA");
      (`"title", Route.JString `"Test Topic");
      (`"description", Route.JString `"A description.");
      (`"clientId", Route.JString `"id");
      (`"clientSecret", Route.JString `"secret");
      (`"refreshToken", Route.JString `"token") ].

(** A request body without a title. *)
Definition untitled_body : Route.json :=
  Route.JObject
    [ (`"videoBase64", Route.JString `"AAAA");
      (`"description", Route.JString `"A description.");
      (`"clientId", Route.JString `"id");
      (`"clientSecret", Route.JString `"secret");
      (`"refreshToken", Route.JString `"token") ].

End Demo.

Import Page.

(** ** Strings *)

Lemma truthy_iff (s : jsstring) : truthy s = true <-> s <> [].
Proof. destruct s; simpl; split; congruence. Qed.

Lemma eqb_eq (a b : jsstring) : Js.eqb a b = true <-> a = b.
Proof.
  revert b; induction a as [|x a IH]; intros [|y b]; simpl;
    try (split; congruence).
  rewrite andb_true_iff, N.eqb_eq, IH. split.
  - intros [-> ->]; reflexivity.
  - intros E; injection E; auto.
Qed.

Lemma trimStart_blank (s : jsstring) : trimStart s = [] <-> Spec.blank s.
Proof.
  unfold Spec.blank. induction s as [|c s IH]; simpl.
  - split; auto.
  - destruct (is_space c) eqn:E.
    + rewrite IH. split; intros A.
      * constructor; assumption.
      * inversion A; assumption.
    + split; [discriminate|]. intros A; inversion A; congruence.
Qed.

Lemma trimStart_decompose (s : jsstring) :
  exists ws, s = ws ++ trimStart s /\ Spec.blank ws.
Proof.
  induction s as [|c s [ws [E B]]]; simpl.
  - exists []; split; [reflexivity | constructor].
  - destruct (is_space c) eqn:C.
    + exists (c :: ws). split; [simpl; congruence | constructor; assumption].
    + exists []. split; [reflexivity | constructor].
Qed.

Lemma trimStart_head (s : jsstring) c t :
  trimStart s = c :: t -> is_space c = false.
Proof.
  induction s as [|d s IH]; simpl; [discriminate|].
  destruct (is_space d) eqn:D; [assumption|].
  intros E; injection E as -> _; assumption.
Qed.

Lemma blank_rev (s : jsstring) : Spec.blank (rev s) <-> Spec.blank s.
Proof.
  unfold Spec.blank. rewrite !Forall_forall.
  split; intros A c I; apply A; [apply in_rev in I | apply in_rev]; trivial.
Qed.

Lemma blank_app (a b : jsstring) : Spec.blank (a ++ b) <-> Spec.blank a /\ Spec.blank b.
Proof. unfold Spec.blank. apply Forall_app. Qed.

Lemma trimEnd_blank (s : jsstring) : trimEnd s = [] <-> Spec.blank s.
Proof.
  unfold trimEnd. rewrite <- blank_rev, <- trimStart_blank.
  split; intros E.
  - apply (f_equal (@rev _)) in E. rewrite rev_involutive in E. exact E.
  - rewrite E; reflexivity.
Qed.

Lemma trimEnd_decompose (s : jsstring) :
  exists ws, s = trimEnd s ++ ws /\ Spec.blank ws.
Proof.
  destruct (trimStart_decompose (rev s)) as [ws [E B]].
  exists (rev ws). split.
  - unfold trimEnd. rewrite <- rev_app_distr, <- E, rev_involutive. reflexivity.
  - apply blank_rev; assumption.
Qed.

(** [trim] gives the empty string exactly on blank strings. *)
Lemma trim_blank (s : jsstring) : trim s = [] <-> Spec.blank s.
Proof.
  unfold trim. rewrite trimEnd_blank. split; intros B.
  - destruct (trimStart s) as [|c t] eqn:E.
    + apply trimStart_blank; assumption.
    + apply trimStart_head in E. inversion B; congruence.
  - apply trimStart_blank in B. rewrite B. constructor.
Qed.

(** [trim] removes a blank prefix and a blank suffix, and nothing else. *)
Lemma trim_decompose (s : jsstring) :
  exists before after,
    s = before ++ trim s ++ after /\ Spec.blank before /\ Spec.blank after.
Proof.
  destruct (trimStart_decompose s) as [before [E1 B1]].
  destruct (trimEnd_decompose (trimStart s)) as [after [E2 B2]].
  exists before, after. unfold trim. rewrite <- E2. auto.
Qed.

Lemma trimEnd_head (c : code_unit) (t : jsstring) :
  is_space c = false -> exists t', trimEnd (c :: t) = c :: t'.
Proof.
  intros C. unfold trimEnd. simpl.
  destruct (trimStart_decompose (rev t ++ [c])) as [ws [E B]].
  destruct (trimStart (rev t ++ [c])) as [|d r] eqn:T.
  - apply trimStart_blank in T. apply blank_app in T. destruct T as [_ T].
    inversion T; congruence.
  - apply (f_equal (@rev _)) in E.
    rewrite rev_app_distr in E. simpl in E. rewrite rev_involutive in E.
    rewrite rev_app_distr in E.
    destruct (rev (d :: r)) as [|x y] eqn:R.
    + apply (f_equal (@List.length _)) in R. rewrite length_rev in R. discriminate.
    + simpl in E. injection E as -> _. exists y. reflexivity.
Qed.

Lemma trimEnd_last (s : jsstring) c :
  trimEnd s <> [] -> is_space (last (trimEnd s) c) = false.
Proof.
  unfold trimEnd. intros N.
  destruct (trimStart (rev s)) as [|d r] eqn:T; [contradiction|].
  apply trimStart_head in T. simpl. rewrite last_last. assumption.
Qed.

(** The result of [trim] has white space at neither end. *)
Lemma trim_trimmed (s : jsstring) : Spec.trimmed (trim s).
Proof.
  unfold Spec.trimmed. destruct (trim s) as [|c t] eqn:E; [exact I|].
  unfold trim in *. split.
  - destruct (trimStart s) as [|d r] eqn:T.
    + discriminate.
    + pose proof (trimStart_head _ T) as D.
      destruct (@trimEnd_head d r D) as [t' E'].
      rewrite E' in E. injection E as <- _. assumption.
  - rewrite <- E. apply trimEnd_last. rewrite E. discriminate.
Qed.

(** [split] cuts at every separator and nowhere else: joining the
    pieces gives the string back, and no piece holds a separator. *)
Lemma split_nonempty sep (s : jsstring) : split sep s <> [].
Proof.
  destruct s as [|c s]; simpl; [discriminate|].
  destruct (N.eqb c sep); [discriminate|].
  destruct (split sep s); discriminate.
Qed.

Lemma join_split sep (s : jsstring) : Spec.join sep (split sep s) = s.
Proof.
  induction s as [|c s IH]; simpl; [reflexivity|].
  pose proof (split_nonempty sep s) as NE.
  destruct (N.eqb_spec c sep) as [->|D].
  - destruct (split sep s) as [|p ps]; [contradiction|].
    simpl in *. rewrite IH. reflexivity.
  - destruct (split sep s) as [|p ps]; [contradiction|].
    simpl in *. destruct ps; simpl in *; rewrite <- IH; reflexivity.
Qed.

Lemma split_pieces sep (s : jsstring) :
  Forall (fun piece => ~ In sep piece) (split sep s).
Proof.
  induction s as [|c s IH]; simpl.
  - constructor; [intros [] | constructor].
  - destruct (N.eqb_spec c sep) as [->|D].
    + constructor; [intros [] | assumption].
    + destruct (split sep s) as [|p ps].
      * constructor; [|constructor]. intros [E|[]]; congruence.
      * inversion IH; subst. constructor; [|assumption].
        intros [E|I]; [congruence | contradiction].
Qed.

(** ** The scene store *)

Lemma fold_left_runtime (scenes : list Scene) (acc : Z) :
  fold_left (fun sum scene => (sum + Z.max (duration scene) minDuration)%Z) scenes acc
  = (acc + Spec.runtime_sum scenes)%Z.
Proof.
  revert acc; induction scenes as [|s scenes IH]; intros acc; simpl.
  - unfold Spec.runtime_sum; simpl; lia.
  - rewrite IH. unfold Spec.runtime_sum. cbn [map fold_right]. lia.
Qed.

(** C4: the total runtime of any list of scenes is the sum over the
    scenes of max(duration, minDuration), with minDuration = 4; for
    scenes of durations 4, 6, 20 and 2 it is 34, not 32. *)
Theorem totalRuntime_floor_sum :
  minDuration = 4%Z
  /\ (forall scenes, totalRuntime scenes = Spec.runtime_sum scenes)
  /\ (forall scenes,
        map duration scenes = [4; 6; 20; 2]%Z ->
        totalRuntime scenes = 34%Z /\ totalRuntime scenes <> 32%Z).
Proof.
  split; [reflexivity|]. split.
  - intros scenes. unfold totalRuntime. rewrite fold_left_runtime. lia.
  - intros scenes E. unfold totalRuntime. rewrite fold_left_runtime.
    unfold Spec.runtime_sum. rewrite <- (map_map duration (fun d => Z.max d minDuration)).
    rewrite E. simpl. unfold minDuration. lia.
Qed.

(** ** The publish form *)

(** C5: the readiness predicate is true exactly when an artifact is
    present and clientId, clientSecret, refreshToken, title and
    description are all non-empty. *)
Theorem isYoutubeFormValid_iff (form : YoutubeFormState) (hasVideo : bool) :
  isYoutubeFormValid form hasVideo = true <-> Spec.canPublish form hasVideo.
Proof.
  unfold isYoutubeFormValid, Spec.canPublish.
  rewrite !andb_true_iff, !truthy_iff. tauto.
Qed.

Lemma youtubeChange_tags (value : jsstring) (prev : YoutubeFormState) :
  youtubeChange KTags value prev
  = set_tags (filter truthy (map trim (split comma value))) prev.
Proof. reflexivity. Qed.

Lemma run_setYoutubeForm (f : YoutubeFormState -> YoutubeFormState) (m : Machine) :
  setYoutubeForm f m
  = (inr tt,
     {| page := with_youtubeForm (f (youtubeForm (page m))) (page m);
        draws := draws m;
        trace := trace m ++ [SetYoutubeForm (f (youtubeForm (page m)))] |}).
Proof. reflexivity. Qed.

(** C6: every update of the tags field stores the input split on ',',
    each piece trimmed, the empty pieces dropped and duplicates kept;
    the other fields are untouched. *)
Theorem tags_normalized_on_every_update :
  (forall (value : jsstring) (m : Machine),
     let r := handleYoutubeChange KTags value m in
     fst r = inr tt
     /\ youtubeForm (page (snd r))
        = set_tags (filter truthy (map trim (split comma value)))
                   (youtubeForm (page m)))
  /\ (forall (value : jsstring) (prev : YoutubeFormState),
        tags (set_tags (filter truthy (map trim (split comma value))) prev)
        = filter (fun piece => negb (Js.eqb piece []))
                 (map trim (split comma value)))
  /\ filter truthy (map trim (split comma `"a, ,b,b ")) = [`"a"; `"b"; `"b"].
Proof.
  split; [|split].
  - intros value m. unfold handleYoutubeChange. rewrite run_setYoutubeForm.
    simpl. split; reflexivity.
  - intros value prev. simpl. apply filter_ext. intros [|c s]; reflexivity.
  - reflexivity.
Qed.

(** C2, as the code behaves: an update of privacyStatus stores the given
    string whatever it is; a value outside public, unlisted, private is
    stored too, and the form changes. *)
Theorem privacyStatus_stores_any_value :
  (forall (value : jsstring) (prev : YoutubeFormState),
     youtubeChange KPrivacyStatus value prev = set_field KPrivacyStatus value prev)
  /\ (forall (value : jsstring) (m : Machine),
        privacyStatus (youtubeForm (page (snd (handleYoutubeChange KPrivacyStatus value m))))
        = value)
  /\ privacyStatus (youtubeChange KPrivacyStatus `"bogus" (initialYoutubeForm defaultTopic))
     = `"bogus"
  /\ youtubeChange KPrivacyStatus `"bogus" (initialYoutubeForm defaultTopic)
     <> initialYoutubeForm defaultTopic.
Proof.
  assert (A : forall value prev,
             youtubeChange KPrivacyStatus value prev
             = set_field KPrivacyStatus value prev).
  { intros value prev. unfold youtubeChange. simpl.
    destruct (_ || _); reflexivity. }
  split; [exact A|]. split; [|split].
  - intros value m. unfold handleYoutubeChange. rewrite run_setYoutubeForm.
    simpl. rewrite A. reflexivity.
  - rewrite A. reflexivity.
  - rewrite A. intros E. apply (f_equal privacyStatus) in E. discriminate E.
Qed.

(** ** Seeding the scene store *)

Section Seeding.
Context {H : Host}.

(** C9: for every topic the seed is six scenes of duration 6, of total
    runtime 36; the narration is built from the trimmed topic, and from
    the default topic when the topic is blank. *)
Theorem buildScenesFromTopic_six_scenes (topic : jsstring) (n : nat) :
  let seeded := fst (buildScenesFromTopic topic n) in
  let focus := match trim topic with [] => defaultTopic | _ :: _ => trim topic end in
  List.length seeded = 6
  /\ Forall (fun scene => duration scene = 6%Z) seeded
  /\ totalRuntime seeded = 36%Z
  /\ map title seeded
     = [`"Hook"; `"System Overview"; `"Asset Generation"; `"Video Assembly";
        `"Deployment"; `"Call To Action"]
  /\ nth_error (map narration seeded) 0
     = Some (`"Why spend days editing when " ++ focus
             ++ `" lets you storyboard, narrate, and publish while you sleep?")
  /\ nth_error (map narration seeded) 5
     = Some (`"Start automating your " ++ toLowerCase focus
             ++ `" today and reinvest saved hours into strategy and community.")
  /\ (trim topic = [] <-> Spec.blank topic).
Proof.
  assert (F : or_else (trim topic) defaultTopic
              = match trim topic with [] => defaultTopic | _ :: _ => trim topic end).
  { unfold or_else. destruct (trim topic); reflexivity. }
  cbv zeta. rewrite <- F.
  unfold buildScenesFromTopic, createScene, rand_bind, rand_ret, randomGradient, makeId.
  cbn [fst snd List.length map nth_error duration title narration].
  repeat split.
  - repeat constructor.
  - apply trim_blank.
  - apply trim_blank.
Qed.

End Seeding.

(** ** Handlers of the page *)

(** Unfolds the operations of [Eff] and computes as far as the state
    and the environment allow. *)
Ltac run_eff :=
  repeat (progress
    (unfold bind, try_catch, try_finally, await, ret, throw, get_page,
       lift_rand, call_generate, call_fetch, setScenes, setVideoUrl,
       setVideoBlob, setYoutubeForm, setIsUploading, setUploadResult,
       alert, console_error, emit, modify_page;
     cbn -[buildScenesFromTopic])).

Section PageHandlers.
Context {H : Host}.

(** C10: regenerating the scenes replaces the scene store by the seed of
    the topic and the whole publish form by the defaults of the topic:
    the topic as title, the templated description, the fixed tags,
    privacy private, and the three credentials emptied. *)
Theorem regenerateScenes_resets_form (m : Machine) :
  let r := regenerateScenes m in
  let t := topic (page m) in
  let form := youtubeForm (page (snd r)) in
  fst r = inr tt
  /\ scenes (page (snd r)) = fst (buildScenesFromTopic t (draws m))
  /\ form = initialYoutubeForm t
  /\ form_title form = t
  /\ description form = defaultDescription t
  /\ tags form = [`"automation"; `"youtube"; `"ai workflow"]
  /\ privacyStatus form = `"private"
  /\ clientId form = [] /\ clientSecret form = [] /\ refreshToken form = [].
Proof.
  cbv zeta. unfold regenerateScenes, bind, get_page, lift_rand.
  destruct (buildScenesFromTopic (topic (page m)) (draws m)) as [seeded n].
  cbn. repeat split.
Qed.

(** C3, as the code behaves: duplicating takes the scene itself and
    always appends one copy of it, with a fresh id and the title marked
    "(extended)", whether or not the store holds a scene of that id; the
    scenes already there are kept and nothing is thrown. *)
Theorem handleDuplicateScene_appends (scene : Scene) (m : Machine) :
  let r := handleDuplicateScene scene m in
  let before := scenes (page m) in
  let after := scenes (page (snd r)) in
  fst r = inr tt
  /\ (exists copy,
        after = before ++ [copy]
        /\ id copy = fresh_id (draws m)
        /\ title copy = title scene ++ `" (extended)"
        /\ narration copy = narration scene
        /\ duration copy = duration scene
        /\ gradient copy = gradient scene
        /\ emphasis copy = emphasis scene)
  /\ List.length after = S (List.length before)
  /\ firstn (List.length before) after = before
  /\ with_scenes before (page (snd r)) = page m.
Proof.
  cbv zeta. unfold handleDuplicateScene, makeId. run_eff.
  split; [reflexivity|]. split; [|split; [|split]].
  - eexists. split; [reflexivity|]. cbn. repeat split.
  - rewrite length_app. cbn. lia.
  - rewrite firstn_app, Nat.sub_diag, firstn_all. cbn. apply app_nil_r.
  - destruct m as [[] ? ?]. reflexivity.
Qed.

(** C8: a render first clears the video URL and the video blob, then
    submits the composition of the current scenes; afterwards the page
    holds the new result, or none when the render failed, never the
    previous one. *)
Theorem beginGeneration_clears_first (m : Machine) :
  let composition :=
    {| comp_scenes := scenes (page m); width := 1280; height := 720; fps := 30;
       comp_backgroundAudio := backgroundAudio (page m) |} in
  let m' := snd (beginGeneration m) in
  fst (beginGeneration m) = inr tt
  /\ trace m' = trace m
       ++ [SetVideoUrl None; SetVideoBlob None; CallGenerate composition]
       ++ match generate composition with
          | inr result =>
              [SetVideoUrl (Some (url result)); SetVideoBlob (Some (blob result))]
          | inl error =>
              [ConsoleError error;
               Alert `"Video rendering failed. Check console for details."]
          end
  /\ match generate composition with
     | inr result =>
         videoUrl (page m') = Some (url result)
         /\ videoBlob (page m') = Some (blob result)
     | inl _ => videoUrl (page m') = None /\ videoBlob (page m') = None
     end.
Proof.
  cbv zeta. unfold beginGeneration, try_catch, call_generate, bind, get_page,
    setVideoUrl, setVideoBlob, console_error, alert, emit, modify_page, ret, throw.
  cbn.
  destruct (generate _) as [error|result]; cbn;
    rewrite <- !app_assoc; cbn; repeat split.
Qed.

(** C1, as the code behaves: submitting with no artifact only tells the
    user to generate a video: no state changes and no request is sent,
    whatever the form holds.  With an artifact that encodes, the request
    is sent with the form as it is: the workflow does not look at the
    form fields. *)
Theorem submitYoutubeUpload_guards_artifact_only (m : Machine) :
  (videoBlob (page m) = None ->
   submitYoutubeUpload m
   = (inr tt,
      {| page := page m; draws := draws m;
         trace := trace m ++ [PreventDefault; Alert `"Generate a video first."] |}))
  /\ (forall (artifact : Blob) (encoded : jsstring),
        videoBlob (page m) = Some artifact ->
        blobToBase64 artifact = inr encoded ->
        exists rest,
          trace (snd (submitYoutubeUpload m))
          = trace m
              ++ [PreventDefault; SetIsUploading true; SetUploadResult None;
                  CallFetch {| payload_form := youtubeForm (page m);
                               videoBase64 := encoded |}]
              ++ rest).
Proof.
  split.
  - intros E. unfold submitYoutubeUpload. run_eff. rewrite E. run_eff.
    rewrite <- app_assoc. reflexivity.
  - intros artifact encoded E B.
    unfold submitYoutubeUpload. run_eff. rewrite E. run_eff. rewrite B.
    destruct (fetch_upload _) as [e|[o [e|b]]]; run_eff;
      try (destruct o; run_eff);
      rewrite <- !app_assoc; cbn; eexists; reflexivity.
Qed.

End PageHandlers.

(** ** The server route *)

Section RouteHandler.
Import Route.
Context {node : Node}.

Lemma required_cases (v : option json) (text : string) :
  (exists x, v = Some x /\ required v text = inr x)
  \/ required v text = raise text.
Proof.
  unfold required. destruct v as [x|]; [|right; reflexivity].
  destruct (truthy (Some x)); [left; exists x; split; reflexivity | right; reflexivity].
Qed.

Ltac required_step :=
  match goal with
  | |- context [required ?v ?t] =>
      destruct (required_cases v t) as [[? [? ->]] | ->]; cbn [and_then]
  end.

(** [parseBody] throws [Error] objects only. *)
Lemma parseBody_error (data : json) (e : thrown) :
  parseBody data = inl e -> exists msg, e = Error msg.
Proof.
  unfold parseBody. destruct (_ || _).
  - intros E; injection E as <-. eexists; reflexivity.
  - repeat required_step; intros E; try discriminate E;
      injection E as <-; eexists; reflexivity.
Qed.

(** A body that lacks a required field does not pass [parseBody]. *)
Lemma parseBody_missing (data : json) :
  Spec.missing_field data -> exists msg, parseBody data = inl (Error msg).
Proof.
  intros [key [I E]].
  destruct (parseBody data) as [e|payload] eqn:P.
  - destruct (parseBody_error _ P) as [msg ->]. exists msg; reflexivity.
  - exfalso. revert P. unfold parseBody. destruct (_ || _); [discriminate|].
    unfold Spec.required_fields in I. cbn [In] in I.
    repeat required_step; try discriminate;
      intros _; repeat destruct I as [<-|I]; try contradiction; congruence.
Qed.

(** What passed [parseBody] holds the fields of the body. *)
Lemma parseBody_videoBase64 (data : json) (payload : UploadRequest) :
  parseBody data = inr payload ->
  field data `"videoBase64" = Some (videoBase64 payload).
Proof.
  unfold parseBody. destruct (_ || _); [discriminate|].
  repeat required_step; try discriminate.
  intros E; injection E as <-. cbn [videoBase64]. assumption.
Qed.

Lemma decodeVideo_oversized (encoded : json) (buffer : Buffer) :
  buffer_from_base64 encoded = inr buffer ->
  (256 * 1024 * 1024 < N.of_nat (List.length buffer))%N ->
  decodeVideo encoded = inl (Error Spec.size_limit_message).
Proof.
  intros E L. unfold decodeVideo. rewrite E.
  replace (MAX_UPLOAD_SIZE_MB * (1024 * 1024))%N with (256 * 1024 * 1024)%N
    by reflexivity.
  apply N.ltb_lt in L. rewrite L. reflexivity.
Qed.

Lemma POST_parse_error (data : json) (msg : jsstring) :
  parseBody data = inl (Error msg) ->
  POST (inr data)
  = ({| status := 400; body := ErrorBody msg |},
     [ConsoleError `"YouTube upload failed" (Error msg)]).
Proof.
  intros E. unfold POST, upload, prepare. cbn [and_then]. rewrite E. reflexivity.
Qed.

Lemma POST_decode_error (data : json) (payload : UploadRequest) (msg : jsstring) :
  parseBody data = inr payload ->
  decodeVideo (videoBase64 payload) = inl (Error msg) ->
  POST (inr data)
  = ({| status := 400; body := ErrorBody msg |},
     [ConsoleError `"YouTube upload failed" (Error msg)]).
Proof.
  intros E D. unfold POST, upload, prepare. cbn [and_then]. rewrite E.
  cbn [and_then]. rewrite D. reflexivity.
Qed.

(** C7, as the code behaves: a body that lacks a required field, or
    whose decoded video is larger than 256 MB, is answered with status
    400 and a body [{ error: message }], and the upload service is not
    called.  The fields are checked before the video is decoded: for an
    oversized video the message is the size-limit message when the body
    passes [parseBody], and the message of [parseBody] when it does
    not. *)
Theorem POST_rejects_missing_and_oversized (data : json) :
  Spec.missing_field data \/ Spec.oversized data ->
  exists msg,
    fst (POST (inr data)) = {| status := 400; body := ErrorBody msg |}
    /\ Spec.calls_upload_service (snd (POST (inr data))) = false
    /\ (Spec.oversized data ->
        (exists payload, parseBody data = inr payload) ->
        msg = Spec.size_limit_message)
    /\ (forall text, parseBody data = inl (Error text) -> msg = text).
Proof.
  intros C.
  destruct (parseBody data) as [e|payload] eqn:P.
  - destruct (parseBody_error _ P) as [msg ->]. exists msg.
    rewrite (POST_parse_error _ P).
    split; [reflexivity|]. split; [reflexivity|]. split.
    + intros _ [payload E]. discriminate E.
    + intros text E. injection E as <-. reflexivity.
  - destruct C as [M|O].
    + destruct (parseBody_missing M) as [msg E]. congruence.
    + exists Spec.size_limit_message.
      destruct O as [encoded [buffer [F [B L]]]].
      rewrite (parseBody_videoBase64 _ P) in F. injection F as <-.
      rewrite (POST_decode_error _ P (decodeVideo_oversized _ B L)).
      split; [reflexivity|]. split; [reflexivity|]. split.
      * intros _ _. reflexivity.
      * intros text E. discriminate E.
Qed.

End RouteHandler.

(** ** Concrete runs *)

(** The runtime of scenes of durations 4, 6, 20 and 2. *)
Lemma totalRuntime_floor_sum_witness :
  let durations_of d := {| id := []; title := []; narration := []; duration := d;
                           gradient := ([], []); emphasis := None |} in
  map duration (map durations_of [4; 6; 20; 2]%Z) = [4; 6; 20; 2]%Z
  /\ totalRuntime (map durations_of [4; 6; 20; 2]%Z) = 34%Z.
Proof.
  cbv zeta. split; [reflexivity|].
  apply (proj2 (proj2 totalRuntime_floor_sum)). reflexivity.
Defined.

(** A form with every field filled in and an artifact is ready. *)
Lemma isYoutubeFormValid_iff_witness :
  let form := set_field KClientId `"id"
                (set_field KClientSecret `"secret"
                   (set_field KRefreshToken `"token" (initialYoutubeForm `"Test Topic"))) in
  Spec.canPublish form true /\ isYoutubeFormValid form true = true.
Proof.
  cbv zeta.
  assert (C : Spec.canPublish
                (set_field KClientId `"id"
                   (set_field KClientSecret `"secret"
                      (set_field KRefreshToken `"token" (initialYoutubeForm `"Test Topic"))))
                true).
  { unfold Spec.canPublish. repeat split; discriminate. }
  split; [exact C|].
  apply (proj2 (isYoutubeFormValid_iff _ true)). exact C.
Defined.

(** C1 as stated fails: with an artifact and the initial form, whose
    credentials are empty, the readiness predicate is false, and the
    submit handler still sends the request and returns normally. *)
Lemma submit_sends_request_when_not_ready :
  let m := Demo.start Demo.rendered in
  let r := @submitYoutubeUpload Demo.host m in
  isYoutubeFormValid (youtubeForm (page m)) true = false
  /\ videoBlob (page m) = Some [Byte.x00]
  /\ fst r = inr tt
  /\ Spec.sends_request (trace (snd r)) = true
  /\ trace (snd r)
     = [PreventDefault; SetIsUploading true; SetUploadResult None;
        CallFetch {| payload_form := initialYoutubeForm defaultTopic;
                     videoBase64 := `"AAAA" |};
        SetUploadResult
          (Some {| success := false;
                   message := `"OAuth credentials are required.";
                   result_url := None |});
        SetIsUploading false].
Proof. vm_compute. repeat split. Qed.

(** Submitting before and after a render. *)
Lemma submitYoutubeUpload_guards_witness :
  (videoBlob Demo.unrendered = None
   /\ @submitYoutubeUpload Demo.host (Demo.start Demo.unrendered)
      = (inr tt,
         {| page := Demo.unrendered; draws := 0;
            trace := [] ++ [PreventDefault; Alert `"Generate a video first."] |}))
  /\ (videoBlob Demo.rendered = Some [Byte.x00]
      /\ @blobToBase64 Demo.host [Byte.x00] = inr `"AAAA"
      /\ exists rest,
           trace (snd (@submitYoutubeUpload Demo.host (Demo.start Demo.rendered)))
           = [] ++ [PreventDefault; SetIsUploading true; SetUploadResult None;
                    CallFetch {| payload_form := youtubeForm Demo.rendered;
                                 videoBase64 := `"AAAA" |}]
                ++ rest).
Proof.
  split.
  - split; [reflexivity|].
    apply (proj1 (@submitYoutubeUpload_guards_artifact_only
                    Demo.host (Demo.start Demo.unrendered))).
    reflexivity.
  - split; [reflexivity|]. split; [reflexivity|].
    apply (proj2 (@submitYoutubeUpload_guards_artifact_only
                    Demo.host (Demo.start Demo.rendered))
                 [Byte.x00] `"AAAA"); reflexivity.
Defined.

(** C3 as stated fails: duplicating a scene whose id is not in the
    store appends a scene. *)
Lemma duplicate_absent_scene_appends :
  let m := Demo.start Demo.rendered in
  let r := @handleDuplicateScene Demo.host Demo.ghost m in
  Spec.identifies (id Demo.ghost) (scenes (page m)) = false
  /\ fst r = inr tt
  /\ scenes (page (snd r))
     = [Demo.intro;
        {| id := `"scene-0"; title := `"Ghost (extended)";
           narration := `"Not in the store."; duration := 5;
           gradient := (`"#0f172a", `"#312e81"); emphasis := None |}]
  /\ scenes (page (snd r)) <> scenes (page m).
Proof.
  vm_compute. repeat split. discriminate.
Qed.

(** C7 as stated fails: a body whose decoded video is larger than
    256 MB and that has no title is answered with "Missing title.", not
    with the size-limit message. *)
Lemma POST_oversized_untitled_body :
  @Spec.oversized Demo.heavy_node Demo.untitled_body
  /\ @Route.POST Demo.heavy_node (inr Demo.untitled_body)
     = ({| Route.status := 400; Route.body := Route.ErrorBody `"Missing title." |},
        [Route.ConsoleError `"YouTube upload failed" (Error `"Missing title.")])
  /\ `"Missing title." <> Spec.size_limit_message.
Proof.
  split; [|split].
  - exists (Route.JString `"AAAA"), (repeat Byte.x00 (N.to_nat (256 * 1024 * 1024 + 1))).
    split; [reflexivity|]. split; [reflexivity|].
    rewrite repeat_length, N2Nat.id. reflexivity.
  - apply (@POST_parse_error Demo.heavy_node). reflexivity.
  - discriminate.
Qed.

(** A body without a title and a complete body with an oversized video. *)
Lemma POST_rejects_witness :
  (Spec.missing_field Demo.untitled_body
   /\ exists msg,
        fst (@Route.POST Demo.heavy_node (inr Demo.untitled_body))
        = {| Route.status := 400; Route.body := Route.ErrorBody msg |}
        /\ Spec.calls_upload_service
             (snd (@Route.POST Demo.heavy_node (inr Demo.untitled_body))) = false)
  /\ (@Spec.oversized Demo.heavy_node Demo.complete_body
      /\ (exists payload, Route.parseBody Demo.complete_body = inr payload)
      /\ fst (@Route.POST Demo.heavy_node (inr Demo.complete_body))
         = {| Route.status := 400;
              Route.body := Route.ErrorBody Spec.size_limit_message |}
      /\ Spec.calls_upload_service
           (snd (@Route.POST Demo.heavy_node (inr Demo.complete_body))) = false).
Proof.
  assert (M : Spec.missing_field Demo.untitled_body).
  { exists `"title". split; [right; left; reflexivity | reflexivity]. }
  assert (O : @Spec.oversized Demo.heavy_node Demo.complete_body).
  { exists (Route.JString `"AAAA"), (repeat Byte.x00 (N.to_nat (256 * 1024 * 1024 + 1))).
    split; [reflexivity|]. split; [reflexivity|].
    rewrite repeat_length, N2Nat.id. reflexivity. }
  assert (P : exists payload, Route.parseBody Demo.complete_body = inr payload).
  { eexists. reflexivity. }
  split.
  - split; [exact M|].
    destruct (@POST_rejects_missing_and_oversized Demo.heavy_node
                Demo.untitled_body (or_introl M)) as [msg [A [B _]]].
    exists msg. split; assumption.
  - split; [exact O|]. split; [exact P|].
    destruct (@POST_rejects_missing_and_oversized Demo.heavy_node
                Demo.complete_body (or_intror O)) as [msg [A [B [C _]]]].
    rewrite (C O P) in A. split; assumption.
Defined.

(** The seed of the topic "  Test Topic ": the narration of the first
    and of the last scene. *)
Example seed_of_test_topic :
  let seeded := fst (@buildScenesFromTopic Demo.host `"  Test Topic " 0) in
  nth_error (map narration seeded) 0
  = Some `"Why spend days editing when Test Topic lets you storyboard, narrate, and publish while you sleep?"
  /\ nth_error (map narration seeded) 5
     = Some `"Start automating your test topic today and reinvest saved hours into strategy and community."
  /\ map duration seeded = [6; 6; 6; 6; 6; 6]%Z
  /\ totalRuntime seeded = 36%Z.
Proof. vm_compute. repeat split. Qed.

(** The seed of a topic of spaces and tabs is the seed of the default topic. *)
Example seed_of_blank_topic :
  fst (@buildScenesFromTopic Demo.host [32; 9; 32]%N 0)
  = fst (@buildScenesFromTopic Demo.host defaultTopic 0).
Proof. vm_compute. reflexivity. Qed.

(** A complete body with a small video is uploaded and answered with
    the URL of the video. *)
Example POST_accepts_complete_body :
  fst (@Route.POST Demo.light_node (inr Demo.complete_body))
  = {| Route.status := 200;
       Route.body :=
         Route.VideoBody (Some `"abc123")
           (Some `"https://www.youtube.com/watch?v=abc123") |}
  /\ Spec.calls_upload_service
       (snd (@Route.POST Demo.light_node (inr Demo.complete_body))) = true.
Proof. vm_compute. split; reflexivity. Qed.

(** The same body without its title is answered with "Missing title.". *)
Example POST_rejects_untitled_body :
  @Route.POST Demo.light_node (inr Demo.untitled_body)
  = ({| Route.status := 400; Route.body := Route.ErrorBody `"Missing title." |},
     [Route.ConsoleError `"YouTube upload failed" (Error `"Missing title.")]).
Proof. vm_compute. reflexivity. Qed.

(** ** More on strings and tags *)

Lemma trimStart_space (c : code_unit) (s : jsstring) :
  is_space c = true -> trimStart (c :: s) = trimStart s.
Proof. intros E. simpl. rewrite E. reflexivity. Qed.

Lemma trim_space (c : code_unit) (s : jsstring) :
  is_space c = true -> trim (c :: s) = trim s.
Proof. intros E. unfold trim. rewrite trimStart_space by assumption. reflexivity. Qed.

Lemma trimStart_fixed (c : code_unit) (s : jsstring) :
  is_space c = false -> trimStart (c :: s) = c :: s.
Proof. intros E. simpl. rewrite E. reflexivity. Qed.

Lemma last_rev_head (s : jsstring) (c d : code_unit) :
  exists t, rev (c :: s) = last (c :: s) d :: t.
Proof.
  destruct (rev (c :: s)) as [|x t] eqn:R.
  - apply (f_equal (@List.length _)) in R. rewrite length_rev in R. discriminate.
  - exists t. apply (f_equal (@rev _)) in R. rewrite rev_involutive in R.
    rewrite R. simpl rev. rewrite last_last. reflexivity.
Qed.

(** [trim] leaves a string without white space at its ends as it is. *)
Lemma trim_trimmed_id (s : jsstring) : Spec.trimmed s -> trim s = s.
Proof.
  destruct s as [|c s]; [reflexivity|]. intros [A B].
  unfold trim. rewrite trimStart_fixed by assumption.
  unfold trimEnd. destruct (last_rev_head s c c) as [t R].
  rewrite R. rewrite trimStart_fixed by assumption.
  rewrite <- R. apply rev_involutive.
Qed.

Lemma trim_incl (s : jsstring) (c : code_unit) : In c (trim s) -> In c s.
Proof.
  intros I. destruct (trim_decompose s) as [a [b [E _]]].
  rewrite E. apply in_or_app. right. apply in_or_app. left. assumption.
Qed.

Lemma split_without_sep sep (s : jsstring) : ~ In sep s -> split sep s = [s].
Proof.
  induction s as [|c s IH]; intros N; simpl; [reflexivity|].
  destruct (N.eqb_spec c sep) as [->|D].
  - exfalso. apply N. left; reflexivity.
  - rewrite IH; [reflexivity|]. intros I. apply N. right; assumption.
Qed.

Lemma split_at_sep sep (a b : jsstring) :
  ~ In sep a -> split sep (a ++ sep :: b) = a :: split sep b.
Proof.
  induction a as [|c a IH]; intros N; simpl.
  - rewrite N.eqb_refl. reflexivity.
  - destruct (N.eqb_spec c sep) as [->|D].
    + exfalso. apply N. left; reflexivity.
    + rewrite IH; [reflexivity|]. intros I. apply N. right; assumption.
Qed.

(** What the tags handler stores. *)
Lemma normalized_tags_normal (value : jsstring) :
  Forall Spec.normal_tag (filter truthy (map trim (split comma value))).
Proof.
  apply Forall_forall. intros t I.
  apply filter_In in I. destruct I as [I T].
  apply in_map_iff in I. destruct I as [piece [<- I]].
  split; [apply truthy_iff; assumption|]. split.
  - intros C. apply trim_incl in C.
    pose proof (split_pieces comma value) as P.
    rewrite Forall_forall in P. exact (P _ I C).
  - apply trim_trimmed.
Qed.

Lemma normalize_after_space (s : jsstring) :
  filter truthy (map trim (split comma (32%N :: s)))
  = filter truthy (map trim (split comma s)).
Proof.
  simpl split. pose proof (split_nonempty comma s) as NE.
  destruct (split comma s) as [|p ps]; [contradiction|].
  simpl map. rewrite trim_space by reflexivity. reflexivity.
Qed.

(** Normalizing the joined text of normal tags gives the tags back. *)
Lemma normalize_join (l : list jsstring) :
  Forall Spec.normal_tag l ->
  filter truthy (map trim (split comma (join `", " l))) = l.
Proof.
  induction l as [|t rest IH]; intros F; [reflexivity|].
  inversion F as [|? ? [NE [NC TR]] F']; subst.
  apply truthy_iff in NE.
  destruct rest as [|u rest].
  - simpl join. rewrite split_without_sep by assumption.
    cbn [map filter]. rewrite trim_trimmed_id by assumption.
    rewrite NE. reflexivity.
  - change (join `", " (t :: u :: rest))
      with (t ++ comma :: 32%N :: join `", " (u :: rest)).
    rewrite split_at_sep by assumption.
    cbn [map filter]. rewrite trim_trimmed_id by assumption.
    rewrite NE. f_equal.
    rewrite normalize_after_space. apply IH. assumption.
Qed.

(** X1: after any update of the tags field, every stored tag is
    non-empty, holds no comma and has no white space at its ends. *)
Theorem stored_tags_are_normal (value : jsstring) (m : Machine) :
  Forall Spec.normal_tag
    (tags (youtubeForm (page (snd (handleYoutubeChange KTags value m))))).
Proof.
  unfold handleYoutubeChange. rewrite run_setYoutubeForm. cbn.
  apply normalized_tags_normal.
Qed.

(** X2: the text the tags input shows, the stored tags joined with ", ",
    is a fixed point of the handler: feeding it back leaves the form as
    it is.  This holds after any update of the tags, and for the
    initial form. *)
Theorem tags_input_round_trip :
  (forall (value : jsstring) (m : Machine),
     let m1 := snd (handleYoutubeChange KTags value m) in
     let m2 := snd (handleYoutubeChange KTags (tagsInputValue (page m1)) m1) in
     youtubeForm (page m2) = youtubeForm (page m1))
  /\ (forall (topic : jsstring) (prev : YoutubeFormState),
        tags (youtubeChange KTags (join `", " (tags (initialYoutubeForm topic))) prev)
        = tags (initialYoutubeForm topic)).
Proof.
  split.
  - intros value m. cbv zeta. unfold handleYoutubeChange.
    rewrite !run_setYoutubeForm. cbn -[join split trim].
    unfold tagsInputValue. cbn -[join split trim].
    rewrite normalize_join by apply normalized_tags_normal.
    reflexivity.
  - intros topic prev. rewrite youtubeChange_tags. reflexivity.
Qed.

(** ** More on the publish form *)

Lemma youtubeChange_field (key : FormKey) (value : jsstring) (prev : YoutubeFormState) :
  key <> KTags -> youtubeChange key value prev = set_field key value prev.
Proof.
  intros N. unfold youtubeChange.
  destruct key; try contradiction; cbn; try reflexivity.
  destruct (_ || _); reflexivity.
Qed.

(** X3: an update under a key other than [tags] stores the value under
    that key and leaves every other field, the tags included, as it
    was; updates under two different such keys commute. *)
Theorem youtubeChange_get_set (key : FormKey) (value : jsstring)
    (prev : YoutubeFormState) :
  key <> KTags ->
  (forall other,
     Spec.get_field other (youtubeChange key value prev)
     = if Spec.key_eqb key other then value else Spec.get_field other prev)
  /\ tags (youtubeChange key value prev) = tags prev
  /\ (forall key' value',
        key' <> KTags -> key' <> key ->
        youtubeChange key value (youtubeChange key' value' prev)
        = youtubeChange key' value' (youtubeChange key value prev)).
Proof.
  intros N. split; [|split].
  - intros other. rewrite youtubeChange_field by assumption.
    destruct key; try contradiction; destruct other; reflexivity.
  - rewrite youtubeChange_field by assumption. reflexivity.
  - intros key' value' N' D. rewrite !youtubeChange_field by assumption.
    destruct key; try contradiction; destruct key'; try contradiction;
      reflexivity.
Qed.

(** ** More on the scene store *)

Lemma run_setScenes (f : list Scene -> list Scene) (m : Machine) :
  setScenes f m
  = (inr tt,
     {| page := with_scenes (f (scenes (page m))) (page m);
        draws := draws m;
        trace := trace m ++ [SetScenes (f (scenes (page m)))] |}).
Proof. reflexivity. Qed.

Lemma totalRuntime_app (a b : list Scene) :
  totalRuntime (a ++ b) = (totalRuntime a + totalRuntime b)%Z.
Proof.
  unfold totalRuntime. rewrite !fold_left_runtime.
  unfold Spec.runtime_sum. rewrite map_app.
  induction (map _ a) as [|x l IH]; simpl in *; lia.
Qed.

Lemma totalRuntime_cons (s : Scene) (l : list Scene) :
  totalRuntime (s :: l) = (Z.max (duration s) minDuration + totalRuntime l)%Z.
Proof. apply (totalRuntime_app [s] l). Qed.

Lemma totalRuntime_filter (f : Scene -> bool) (l : list Scene) :
  (0 <= totalRuntime (filter f l) <= totalRuntime l)%Z.
Proof.
  induction l as [|s l IH]; [cbn; lia|].
  simpl filter. destruct (f s); rewrite !totalRuntime_cons;
    unfold minDuration; lia.
Qed.

Section SceneStore.
Context {H : Host}.

Lemma run_handleAddScene (m : Machine) :
  let added :=
    {| id := fresh_id (S (draws m));
       title := `"New Scene";
       narration := `"Refine this narration to keep the narrative tight and insightful.";
       duration := 6;
       gradient := fst (randomGradient (draws m));
       emphasis := Some `"Adjust duration and visuals to fit the rhythm." |} in
  handleAddScene m
  = (inr tt,
     {| page := with_scenes (scenes (page m) ++ [added]) (page m);
        draws := S (S (draws m));
        trace := trace m ++ [SetScenes (scenes (page m) ++ [added])] |}).
Proof. reflexivity. Qed.

Lemma run_handleDuplicateScene (scene : Scene) (m : Machine) :
  let copy :=
    {| id := fresh_id (draws m);
       title := title scene ++ `" (extended)";
       narration := narration scene;
       duration := duration scene;
       gradient := gradient scene;
       emphasis := emphasis scene |} in
  handleDuplicateScene scene m
  = (inr tt,
     {| page := with_scenes (scenes (page m) ++ [copy]) (page m);
        draws := S (draws m);
        trace := trace m ++ [SetScenes (scenes (page m) ++ [copy])] |}).
Proof. reflexivity. Qed.

Lemma filter_absent (i : jsstring) (l : list Scene) :
  Spec.identifies i l = false ->
  filter (fun scene => negb (Js.eqb (id scene) i)) l = l.
Proof.
  unfold Spec.identifies. induction l as [|s l IH]; [reflexivity|].
  simpl. destruct (Js.eqb (id s) i); simpl; [discriminate|].
  intros E. rewrite IH by assumption. reflexivity.
Qed.

(** X4: removing by id leaves exactly the scenes of another id, in
    their order; no scene of that id stays; an id the store does not
    hold leaves the store as it is; the total runtime never grows. *)
Theorem handleRemoveScene_removes_id (i : jsstring) (m : Machine) :
  let r := handleRemoveScene i m in
  let before := scenes (page m) in
  let after := scenes (page (snd r)) in
  fst r = inr tt
  /\ (forall scene, In scene after <-> In scene before /\ id scene <> i)
  /\ Spec.identifies i after = false
  /\ (Spec.identifies i before = false -> after = before)
  /\ List.length after <= List.length before
  /\ (totalRuntime after <= totalRuntime before)%Z
  /\ after = Spec.without i before
  /\ (forall kept removed,
        before = kept ++ removed ->
        after = Spec.without i kept ++ Spec.without i removed).
Proof.
  cbv zeta. unfold handleRemoveScene. rewrite run_setScenes. cbn.
  assert (W : forall l,
             filter (fun scene => negb (Js.eqb (id scene) i)) l = Spec.without i l).
  { induction l as [|s l IH]; [reflexivity|].
    cbn. destruct (Js.eqb (id s) i); cbn; rewrite IH; reflexivity. }
  split; [reflexivity|]. split; [|split; [|split; [|split; [|split; [|split]]]]].
  - intros scene. rewrite filter_In, negb_true_iff.
    split; intros [I E]; (split; [assumption|]).
    + intros <-. rewrite (proj2 (eqb_eq _ _) eq_refl) in E. discriminate.
    + destruct (Js.eqb (id scene) i) eqn:B; [|reflexivity].
      apply eqb_eq in B. contradiction.
  - unfold Spec.identifies. induction (scenes (page m)) as [|s l IH]; [reflexivity|].
    simpl. destruct (Js.eqb (id s) i) eqn:B; simpl; [assumption|].
    rewrite B. assumption.
  - apply filter_absent.
  - apply filter_length_le.
  - apply totalRuntime_filter.
  - apply W.
  - intros kept removed ->. rewrite filter_app, !W. reflexivity.
Qed.

(** X5: duplicating a scene and then removing the copy by its id gives
    the store back, when the id drawn for the copy is not already in
    the store. *)
Theorem duplicate_then_remove (scene : Scene) (m : Machine) :
  Spec.identifies (fresh_id (draws m)) (scenes (page m)) = false ->
  let m1 := snd (handleDuplicateScene scene m) in
  let m2 := snd (handleRemoveScene (fresh_id (draws m)) m1) in
  List.length (scenes (page m1)) = S (List.length (scenes (page m)))
  /\ page m2 = page m.
Proof.
  intros A. cbv zeta. rewrite run_handleDuplicateScene. cbn [snd].
  unfold handleRemoveScene. rewrite run_setScenes. cbn.
  split; [rewrite length_app; cbn; lia|].
  rewrite filter_app, filter_absent by assumption. cbn.
  rewrite (proj2 (eqb_eq _ _) eq_refl). cbn. rewrite app_nil_r.
  destruct m as [[] ? ?]. reflexivity.
Qed.

(** X6: every added scene lengthens the video by exactly 6 seconds, and
    a duplicate by the duration of its original, or by 4 when that is
    shorter. *)
Theorem totalRuntime_grows (scene : Scene) (m : Machine) :
  totalRuntime (scenes (page (snd (handleAddScene m))))
  = (totalRuntime (scenes (page m)) + 6)%Z
  /\ totalRuntime (scenes (page (snd (handleDuplicateScene scene m))))
     = (totalRuntime (scenes (page m)) + Z.max (duration scene) 4)%Z.
Proof.
  rewrite run_handleAddScene, run_handleDuplicateScene. cbn [snd page scenes with_scenes].
  rewrite !totalRuntime_app. split; reflexivity.
Qed.

End SceneStore.

(** X7: the total runtime is at least 4 seconds a scene; when every
    duration lies in the range of the editor, from 4 to 20, it is the
    plain sum of the durations and at most 20 seconds a scene. *)
Theorem totalRuntime_bounds (scenes : list Scene) :
  (4 * Z.of_nat (List.length scenes) <= totalRuntime scenes)%Z
  /\ (Forall (fun scene => minDuration <= duration scene <= maxDuration)%Z scenes ->
      totalRuntime scenes = fold_right Z.add 0%Z (map duration scenes)
      /\ (totalRuntime scenes <= 20 * Z.of_nat (List.length scenes))%Z).
Proof.
  split.
  - induction scenes as [|s l IH]; [cbn; lia|].
    rewrite totalRuntime_cons. unfold minDuration.
    change (List.length (s :: l)) with (S (List.length l)). lia.
  - induction 1 as [|s l [A B] F [IH1 IH2]]; [cbn; split; [reflexivity|lia]|].
    rewrite totalRuntime_cons. unfold minDuration, maxDuration in *.
    change (List.length (s :: l)) with (S (List.length l)).
    cbn [map fold_right]. split; lia.
Qed.

(** ** The ids of the store *)

Section SceneIds.
Context {H : Host}.

Import Spec.

Lemma drawn_mono (d d' : nat) (l : list Scene) :
  d <= d' -> Forall (drawn d) l -> Forall (drawn d') l.
Proof.
  intros L F. eapply Forall_impl; [|exact F].
  intros s [k [K E]]. exists k. split; [lia | assumption].
Qed.

Lemma fresh_not_drawn (d k : nat) (l : list Scene) :
  Spec.unique_ids -> d <= k -> Forall (drawn d) l -> ~ In (fresh_id k) (map id l).
Proof.
  intros U L F I. apply in_map_iff in I. destruct I as [s [E I]].
  rewrite Forall_forall in F. destruct (F s I) as [j [J E']].
  rewrite E' in E. apply U in E. lia.
Qed.

Lemma ids_append (d d' k : nat) (l : list Scene) (s : Scene) :
  Spec.unique_ids -> id s = fresh_id k -> d <= k < d' ->
  NoDup (map id l) /\ Forall (drawn d) l ->
  NoDup (map id (l ++ [s])) /\ Forall (drawn d') (l ++ [s]).
Proof.
  intros U E [K1 K2] [N F]. split.
  - rewrite map_app. cbn. apply NoDup_app; [assumption | repeat constructor; intros [] | ].
    intros x I [<-|[]]. rewrite E in I.
    exact (fresh_not_drawn U K1 F I).
  - apply Forall_app. split.
    + apply (drawn_mono (d := d)); [lia | assumption].
    + constructor; [|constructor]. exists k. split; assumption.
Qed.

Lemma NoDup_map_filter (f : Scene -> bool) (l : list Scene) :
  NoDup (map id l) -> NoDup (map id (filter f l)).
Proof.
  induction l as [|s l IH]; intros N; [constructor|].
  inversion N as [|? ? A B]; subst. simpl.
  destruct (f s); [|apply IH; assumption].
  cbn. constructor; [|apply IH; assumption].
  intros I. apply A. apply in_map_iff in I. destruct I as [x [E I]].
  apply filter_In in I. apply in_map_iff. exists x. tauto.
Qed.

Lemma buildScenesFromTopic_ids (topic : jsstring) (n : nat) :
  map id (fst (buildScenesFromTopic topic n))
  = map fresh_id [1 + n; 3 + n; 5 + n; 7 + n; 9 + n; 11 + n]
  /\ snd (buildScenesFromTopic topic n) = 12 + n.
Proof. split; reflexivity. Qed.

Lemma NoDup_fresh (ks : list nat) :
  Spec.unique_ids -> NoDup ks -> NoDup (map fresh_id ks).
Proof.
  intros U. induction 1 as [|k ks A N IH]; cbn; constructor; [|assumption].
  intros I. apply in_map_iff in I. destruct I as [j [E I]].
  apply U in E. subst. contradiction.
Qed.

(** X8: when [makeId] never repeats an id, the ids of the store stay
    pairwise different: regenerating gives such a store from any state,
    and adding, duplicating, removing and updating (with a patch that
    carries no id) keep it so. *)
Theorem scene_ids_stay_unique :
  Spec.unique_ids ->
  (forall m, Spec.store_ok (snd (regenerateScenes m)))
  /\ (forall m, Spec.store_ok m -> Spec.store_ok (snd (handleAddScene m)))
  /\ (forall m scene,
        Spec.store_ok m -> Spec.store_ok (snd (handleDuplicateScene scene m)))
  /\ (forall m i, Spec.store_ok m -> Spec.store_ok (snd (handleRemoveScene i m)))
  /\ (forall m i updates,
        patch_id updates = None ->
        Spec.store_ok m -> Spec.store_ok (snd (updateScene i updates m))).
Proof.
  intros U. unfold Spec.store_ok. split; [|split; [|split; [|split]]].
  - intros m. unfold regenerateScenes. run_eff.
    destruct (buildScenesFromTopic_ids (topic (page m)) (draws m)) as [I D].
    destruct (buildScenesFromTopic (topic (page m)) (draws m)) as [seeded n].
    cbn [fst snd] in I, D. subst n. cbn. split.
    + rewrite I. apply NoDup_fresh; [assumption|].
      repeat (constructor; [cbn; lia|]). constructor.
    + unfold drawn.
      assert (F : Forall (fun i => exists k, k < 12 + draws m /\ i = fresh_id k)
                         (map id seeded)).
      { rewrite I. repeat (constructor; [eexists; split; [|reflexivity]; lia|]).
        constructor. }
      rewrite Forall_map in F. exact F.
  - intros m Ok. rewrite run_handleAddScene. cbn [snd page scenes with_scenes draws].
    apply (ids_append (d := draws m) (k := S (draws m))); auto.
  - intros m scene Ok. rewrite run_handleDuplicateScene.
    cbn [snd page scenes with_scenes draws].
    apply (ids_append (d := draws m) (k := draws m)); auto.
  - intros m i [N F]. unfold handleRemoveScene. rewrite run_setScenes. cbn. split.
    + apply NoDup_map_filter. assumption.
    + apply Forall_forall. intros s I. apply filter_In in I.
      rewrite Forall_forall in F. apply F. tauto.
  - intros m i updates P [N F]. unfold updateScene. rewrite run_setScenes. cbn.
    assert (E : forall s, id (if Js.eqb (id s) i then merge s updates else s) = id s).
    { intros s. destruct (Js.eqb (id s) i); [|reflexivity].
      cbn. rewrite P. reflexivity. }
    split.
    + rewrite map_map. erewrite map_ext; [exact N|]. exact E.
    + apply Forall_map. eapply Forall_impl; [|exact F].
      intros s [k [K D]]. exists k. split; [assumption|]. rewrite E. assumption.
Qed.

End SceneIds.

(** ** Updates, frames and the render *)

Lemma map_matching_absent (i : jsstring) (g : Scene -> Scene) (l : list Scene) :
  Spec.identifies i l = false ->
  map (fun scene => if Js.eqb (id scene) i then g scene else scene) l = l.
Proof.
  unfold Spec.identifies. induction l as [|s l IH]; [reflexivity|].
  simpl. destruct (Js.eqb (id s) i); simpl; [discriminate|].
  intros E. rewrite IH by assumption. reflexivity.
Qed.

(** X9: an update changes the scenes of the given id only, each into
    its merge with the patch, and keeps the number and the order of the
    scenes; an id the store does not hold, or an empty patch, changes
    nothing; a patch without a duration keeps the total runtime. *)
Theorem updateScene_patches_matching (i : jsstring) (updates : ScenePatch)
    (m : Machine) :
  let r := updateScene i updates m in
  let before := scenes (page m) in
  let after := scenes (page (snd r)) in
  fst r = inr tt
  /\ List.length after = List.length before
  /\ (forall n scene,
        nth_error before n = Some scene ->
        nth_error after n
        = Some (if Js.eqb (id scene) i then merge scene updates else scene))
  /\ (forall n scene,
        nth_error before n = Some scene -> id scene <> i ->
        nth_error after n = Some scene)
  /\ (Spec.identifies i before = false -> after = before)
  /\ (updates = Spec.empty_patch -> after = before)
  /\ (patch_duration updates = None -> totalRuntime after = totalRuntime before).
Proof.
  cbv zeta. unfold updateScene. rewrite run_setScenes. cbn.
  split; [reflexivity|]. split; [apply length_map|].
  split; [|split; [|split; [|split]]].
  - intros n scene E. rewrite nth_error_map, E. reflexivity.
  - intros n scene E D. rewrite nth_error_map, E. cbn.
    destruct (Js.eqb (id scene) i) eqn:B; [|reflexivity].
    apply eqb_eq in B. contradiction.
  - apply map_matching_absent.
  - intros ->. induction (scenes (page m)) as [|s l IH]; [reflexivity|].
    cbn [map]. rewrite IH. destruct (Js.eqb (id s) i); [|reflexivity].
    destruct s; reflexivity.
  - intros P. unfold totalRuntime. rewrite !fold_left_runtime.
    unfold Spec.runtime_sum. rewrite map_map. f_equal. f_equal.
    apply map_ext. intros s. destruct (Js.eqb (id s) i); [|reflexivity].
    cbn. rewrite P. reflexivity.
Qed.

Section Frames.
Context {H : Host}.

Lemma run_regenerateScenes (m : Machine) :
  regenerateScenes m
  = (inr tt,
     {| page :=
          with_youtubeForm (initialYoutubeForm (topic (page m)))
            (with_scenes (fst (buildScenesFromTopic (topic (page m)) (draws m)))
               (page m));
        draws := snd (buildScenesFromTopic (topic (page m)) (draws m));
        trace :=
          trace m
          ++ [SetScenes (fst (buildScenesFromTopic (topic (page m)) (draws m)));
              SetYoutubeForm (initialYoutubeForm (topic (page m)))] |}).
Proof.
  unfold regenerateScenes. run_eff.
  destruct (buildScenesFromTopic (topic (page m)) (draws m)) as [seeded n].
  cbn. rewrite <- app_assoc. reflexivity.
Qed.

(** X10: no handler of the scene store clears or replaces the rendered
    video: after adding, duplicating, removing or updating a scene,
    regenerating the scenes, choosing an audio file or editing the
    form, the video URL and the video blob are the ones from before,
    whatever the scenes have become. *)
Theorem scene_edits_keep_video (m : Machine) :
  Spec.same_video (page (snd (handleAddScene m))) (page m)
  /\ (forall scene,
        Spec.same_video (page (snd (handleDuplicateScene scene m))) (page m))
  /\ (forall i, Spec.same_video (page (snd (handleRemoveScene i m))) (page m))
  /\ (forall i updates,
        Spec.same_video (page (snd (updateScene i updates m))) (page m))
  /\ Spec.same_video (page (snd (regenerateScenes m))) (page m)
  /\ (forall files,
        Spec.same_video (page (snd (handleAudioUpload files m))) (page m))
  /\ (forall key value,
        Spec.same_video (page (snd (handleYoutubeChange key value m))) (page m)
        /\ scenes (page (snd (handleYoutubeChange key value m))) = scenes (page m)).
Proof.
  unfold Spec.same_video.
  rewrite run_handleAddScene, run_regenerateScenes.
  repeat split; intros;
    try rewrite run_handleDuplicateScene;
    try (unfold handleRemoveScene; rewrite run_setScenes);
    try (unfold updateScene; rewrite run_setScenes);
    try (unfold handleYoutubeChange; rewrite run_setYoutubeForm);
    try reflexivity;
    unfold handleAudioUpload, setBackgroundAudio;
    destruct files as [[|f l]|]; reflexivity.
Qed.

(** X11: regenerating the scenes always leaves the submit button
    disabled, whatever credentials, title and video the page held: the
    three credentials are emptied. *)
Theorem regenerateScenes_disables_submit (m : Machine) :
  let p := page (snd (regenerateScenes m)) in
  submitDisabled p = true
  /\ (forall hasArtifact, isYoutubeFormValid (youtubeForm p) hasArtifact = false)
  /\ topic p = topic (page m).
Proof.
  cbv zeta. rewrite run_regenerateScenes. cbn [snd page].
  assert (A : forall b, isYoutubeFormValid
                          (initialYoutubeForm (topic (page m))) b = false).
  { intros b. unfold isYoutubeFormValid. destruct b; reflexivity. }
  split; [|split].
  - unfold submitDisabled. cbn [youtubeForm with_youtubeForm]. rewrite A. reflexivity.
  - exact A.
  - reflexivity.
Qed.

(** X12: choosing audio files sets the background audio to the first
    file; an empty or absent selection keeps the audio there was, so the
    handler never removes it; the next render submits that audio with
    the scenes. *)
Theorem handleAudioUpload_first_file (files : option (list File)) (m : Machine) :
  let m1 := snd (handleAudioUpload files m) in
  fst (handleAudioUpload files m) = inr tt
  /\ backgroundAudio (page m1)
     = match files with
       | Some (file :: _) => Some file
       | _ => backgroundAudio (page m)
       end
  /\ (backgroundAudio (page m) <> None -> backgroundAudio (page m1) <> None)
  /\ In (CallGenerate
           {| comp_scenes := scenes (page m); width := 1280; height := 720;
              fps := 30; comp_backgroundAudio := backgroundAudio (page m1) |})
        (trace (snd (beginGeneration m1))).
Proof.
  cbv zeta. unfold handleAudioUpload, setBackgroundAudio.
  destruct files as [[|f l]|]; cbn [or_keep];
    (split; [reflexivity|]); (split; [reflexivity|]);
    (split; [try (intros; assumption); try discriminate|]);
    unfold beginGeneration; run_eff;
    destruct (generate _); run_eff;
    rewrite <- ?app_assoc; apply in_or_app; right; cbn; tauto.
Qed.

(** X13: a render never throws, and leaves the scenes, the topic, the
    audio and everything of the publish form as they were; when the
    composer fails, the page holds no video, the submit button is
    disabled and a submit sends no request. *)
Theorem beginGeneration_failure_blocks_submit (m : Machine) :
  let m1 := snd (beginGeneration m) in
  fst (beginGeneration m) = inr tt
  /\ scenes (page m1) = scenes (page m)
  /\ topic (page m1) = topic (page m)
  /\ backgroundAudio (page m1) = backgroundAudio (page m)
  /\ Spec.same_publish_state (page m1) (page m)
  /\ ((exists error,
         generate {| comp_scenes := scenes (page m); width := 1280;
                     height := 720; fps := 30;
                     comp_backgroundAudio := backgroundAudio (page m) |}
         = inl error) ->
      hasVideo (page m1) = false
      /\ submitDisabled (page m1) = true
      /\ Spec.requests (trace (snd (submitYoutubeUpload m1)))
         = Spec.requests (trace m)).
Proof.
  cbv zeta. unfold Spec.same_publish_state, beginGeneration. run_eff.
  destruct (generate _) as [error|result]; run_eff;
    repeat (split; [reflexivity|]); (split; [repeat split|]).
  - intros _. split; [reflexivity|]. split; [reflexivity|].
    unfold Spec.requests. rewrite !flat_map_app. cbn.
    rewrite !app_nil_r. reflexivity.
  - intros [error E]. discriminate E.
Qed.

End Frames.

(** ** Encoding and submitting *)

Lemma split_second sep (s p : jsstring) :
  nth_error (split sep s) 1 = Some p ->
  ~ In sep p
  /\ exists header rest,
       s = header ++ sep :: p ++ rest
       /\ ~ In sep header
       /\ (rest = [] \/ exists rest', rest = sep :: rest').
Proof.
  intros E. pose proof (join_split sep s) as J.
  pose proof (split_pieces sep s) as P.
  destruct (split sep s) as [|h [|q ps]]; try discriminate E.
  cbn in E. injection E as ->.
  inversion P as [|? ? Hh P']; subst. inversion P' as [|? ? Hp _]; subst.
  split; [assumption|].
  exists h. destruct ps as [|x ps].
  - exists []. rewrite app_nil_r. auto.
  - exists (sep :: Spec.join sep (x :: ps)). split; [reflexivity|]. split.
    + assumption.
    + right. eexists. reflexivity.
Qed.

Section Submit.
Context {H : Host}.

Lemma blobToBase64_nonempty (b : Blob) (encoded : jsstring) :
  blobToBase64 b = inr encoded -> encoded <> [].
Proof.
  unfold blobToBase64. destruct (readAsDataURL b) as [e|result]; [discriminate|].
  destruct (nth_error _ 1) as [p|]; [|discriminate].
  destruct p; cbn; [discriminate|]. intros E; injection E as <-. discriminate.
Qed.

(** X14: on a data URL that has a non-empty part between its first
    comma and the next comma or the end, [blobToBase64] returns that
    part, and it returns nothing else: what it returns is never empty
    and holds no comma.  A data URL without a comma, or with nothing
    after its first comma, fails with "Failed to encode video payload.",
    and a failure of the reader is passed on. *)
Theorem blobToBase64_payload (b : Blob) :
  (forall header encoded rest,
     readAsDataURL b = inr (header ++ comma :: encoded ++ rest) ->
     ~ In comma header -> ~ In comma encoded -> encoded <> [] ->
     rest = [] \/ (exists rest', rest = comma :: rest') ->
     blobToBase64 b = inr encoded)
  /\ (forall encoded,
     blobToBase64 b = inr encoded ->
        encoded <> [] /\ ~ In comma encoded
        /\ exists header rest,
             readAsDataURL b = inr (header ++ comma :: encoded ++ rest)
             /\ ~ In comma header
             /\ (rest = [] \/ exists rest', rest = comma :: rest'))
  /\ (forall result,
        readAsDataURL b = inr result -> ~ In comma result ->
        blobToBase64 b = inl (Error `"Failed to encode video payload."))
  /\ (forall header rest,
        readAsDataURL b = inr (header ++ comma :: comma :: rest) ->
        ~ In comma header ->
        blobToBase64 b = inl (Error `"Failed to encode video payload."))
  /\ (forall header,
        readAsDataURL b = inr (header ++ [comma]) ->
        ~ In comma header ->
        blobToBase64 b = inl (Error `"Failed to encode video payload."))
  /\ (forall e, readAsDataURL b = inl e -> blobToBase64 b = inl e).
Proof.
  split; [|split; [|split; [|split; [|split]]]].
  - intros header encoded rest E NH NE T R. unfold blobToBase64. rewrite E.
    rewrite split_at_sep by assumption.
    apply truthy_iff in T.
    destruct R as [->|[rest' ->]].
    + rewrite app_nil_r, split_without_sep by assumption.
      cbn [nth_error]. rewrite T. reflexivity.
    + rewrite split_at_sep by assumption.
      cbn [nth_error]. rewrite T. reflexivity.
  - intros encoded E. split; [exact (blobToBase64_nonempty _ E)|].
    revert E. unfold blobToBase64.
    destruct (readAsDataURL b) as [e|result]; [discriminate|].
    destruct (nth_error _ 1) as [p|] eqn:N; [|discriminate].
    destruct (truthy p); [|discriminate]. intros E; injection E as <-.
    destruct (split_second _ _ N) as [A [header [rest [-> [B C]]]]].
    split; [assumption|]. exists header, rest. auto.
  - intros result E N. unfold blobToBase64. rewrite E.
    rewrite split_without_sep by assumption. reflexivity.
  - intros header rest E N. unfold blobToBase64. rewrite E.
    rewrite split_at_sep by assumption. reflexivity.
  - intros header E N. unfold blobToBase64. rewrite E.
    rewrite split_at_sep by assumption. reflexivity.
  - intros e E. unfold blobToBase64. rewrite E. reflexivity.
Qed.

(** A submit with an artifact, step by step. *)
Lemma run_submit (m : Machine) (artifact : Blob) :
  videoBlob (page m) = Some artifact ->
  let started := trace m ++ [PreventDefault; SetIsUploading true; SetUploadResult None] in
  let finish sent result :=
    (inr tt,
     {| page := with_isUploading false
                  (with_uploadResult (Some result)
                     (with_uploadResult None (with_isUploading true (page m))));
        draws := draws m;
        trace := started ++ sent ++ [SetUploadResult (Some result); SetIsUploading false] |}) in
  let failed text :=
    {| success := false; message := text; result_url := None |} in
  submitYoutubeUpload m
  = match blobToBase64 artifact with
    | inl e => finish [] (failed (message_or e `"YouTube upload failed."))
    | inr encoded =>
        let payload := {| payload_form := youtubeForm (page m);
                          videoBase64 := encoded |} in
        match fetch_upload payload with
        | inl e =>
            finish [CallFetch payload] (failed (message_or e `"YouTube upload failed."))
        | inr response =>
            match json response with
            | inl e =>
                finish [CallFetch payload]
                  (failed (message_or e `"YouTube upload failed."))
            | inr body =>
                if ok response then
                  finish [CallFetch payload]
                    {| success := true;
                       message := `"Video uploaded successfully.";
                       result_url := body_videoUrl body |}
                else
                  finish [CallFetch payload]
                    (failed match body_error body with
                            | Some e => e
                            | None => `"Unable to upload video."
                            end)
            end
        end
    end.
Proof.
  intros E. cbv zeta. unfold submitYoutubeUpload. run_eff. rewrite E. run_eff.
  destruct (blobToBase64 artifact) as [e|encoded]; run_eff.
  - rewrite <- !app_assoc. reflexivity.
  - destruct (fetch_upload _) as [e|[o [e|body]]]; run_eff;
      try (destruct o; run_eff); rewrite <- !app_assoc; reflexivity.
Qed.

(** X15: a submit sends at most one request; the request carries the
    form as the page holds it and the encoding of the video blob of the
    page, which is never empty. *)
Theorem submit_sends_at_most_one_request (m : Machine) :
  exists sent,
    Spec.requests (trace (snd (submitYoutubeUpload m)))
    = Spec.requests (trace m) ++ sent
    /\ List.length sent <= 1
    /\ forall payload,
         In payload sent ->
         payload_form payload = youtubeForm (page m)
         /\ videoBase64 payload <> []
         /\ exists artifact,
              videoBlob (page m) = Some artifact
              /\ blobToBase64 artifact = inr (videoBase64 payload).
Proof.
  destruct (videoBlob (page m)) as [artifact|] eqn:E.
  - rewrite (run_submit m E). cbv zeta.
    destruct (blobToBase64 artifact) as [e|encoded] eqn:B.
    + exists []. cbn [snd trace]. unfold Spec.requests.
      rewrite !flat_map_app. cbn. rewrite !app_nil_r.
      split; [reflexivity|]. split; [cbn; lia|]. intros ? [].
    + exists [{| payload_form := youtubeForm (page m); videoBase64 := encoded |}].
      split; [|split; [cbn; lia|]].
      * destruct (fetch_upload _) as [e|[o [e|body]]]; try destruct o;
          cbn [snd trace ok json]; unfold Spec.requests;
          rewrite !flat_map_app; cbn; rewrite !app_nil_r; reflexivity.
      * intros payload [<-|[]]. cbn. split; [reflexivity|].
        split; [exact (blobToBase64_nonempty _ B)|].
        exists artifact. split; [reflexivity | assumption].
  - exists []. unfold submitYoutubeUpload. run_eff. rewrite E. run_eff.
    unfold Spec.requests. rewrite !flat_map_app. cbn. rewrite !app_nil_r.
    split; [reflexivity|]. split; [cbn; lia|]. intros ? [].
Qed.

(** X16: a submit never throws.  With an artifact it always ends with
    the in-flight flag cleared and a result on the page; the result is
    a success exactly when the video encoded, the request resolved with
    an ok status and its body parsed; a failure carries no URL.  The
    scenes, the video and the form are left as they were. *)
Theorem submit_always_settles (m : Machine) :
  let m' := snd (submitYoutubeUpload m) in
  fst (submitYoutubeUpload m) = inr tt
  /\ scenes (page m') = scenes (page m)
  /\ youtubeForm (page m') = youtubeForm (page m)
  /\ Spec.same_video (page m') (page m)
  /\ (forall artifact,
        videoBlob (page m) = Some artifact ->
        isUploading (page m') = false
        /\ exists result,
             uploadResult (page m') = Some result
             /\ (success result = true <->
                 exists encoded response body,
                   blobToBase64 artifact = inr encoded
                   /\ fetch_upload {| payload_form := youtubeForm (page m);
                                      videoBase64 := encoded |} = inr response
                   /\ json response = inr body
                   /\ ok response = true)
             /\ (success result = false -> result_url result = None)).
Proof.
  cbv zeta. unfold Spec.same_video.
  destruct (videoBlob (page m)) as [artifact|] eqn:E.
  - rewrite (run_submit m E). cbv zeta.
    destruct (blobToBase64 artifact) as [e|encoded] eqn:B;
      [|destruct (fetch_upload _) as [e|[o [e|body]]] eqn:F;
        [| |destruct o]];
      cbn [fst snd page scenes youtubeForm videoUrl videoBlob isUploading
           uploadResult with_isUploading with_uploadResult ok json];
      (split; [reflexivity|]); (split; [reflexivity|]); (split; [reflexivity|]);
      (split; [split; [reflexivity | exact E]|]);
      intros a A; injection A as <-; (split; [reflexivity|]);
      eexists; (split; [reflexivity|]); cbn [success result_url];
      (split; [|intros; first [reflexivity | discriminate]]).
    + split; [discriminate|]. intros [? [? [? [X _]]]].
      rewrite B in X. discriminate X.
    + split; [discriminate|]. intros [x [? [? [X [Y _]]]]].
      rewrite B in X. injection X as <-. rewrite F in Y. discriminate Y.
    + split; [discriminate|]. intros [x [r [? [X [Y [Z _]]]]]].
      rewrite B in X. injection X as <-. rewrite F in Y. injection Y as <-.
      cbn in Z. discriminate Z.
    + split; [intros _|reflexivity].
      exists encoded, {| ok := true; json := inr body |}, body. auto.
    + split; [discriminate|]. intros [x [r [? [X [Y [_ Z]]]]]].
      rewrite B in X. injection X as <-. rewrite F in Y. injection Y as <-.
      discriminate Z.
  - unfold submitYoutubeUpload. run_eff. rewrite E. run_eff.
    (split; [reflexivity|]); (split; [reflexivity|]); (split; [reflexivity|]).
    split; [split; [reflexivity | exact E]|].
    intros ? A. discriminate A.
Qed.

(** X17: what the user is told when the upload fails: the [error] of
    the response body when the status is not ok, "Unable to upload
    video." when the body has none, and the message of the thrown error
    when the request itself fails, or "YouTube upload failed." when
    what was thrown is no [Error]. *)
Theorem submit_failure_message (m : Machine) (artifact : Blob)
    (encoded : jsstring) :
  videoBlob (page m) = Some artifact ->
  blobToBase64 artifact = inr encoded ->
  let payload := {| payload_form := youtubeForm (page m); videoBase64 := encoded |} in
  let shown := uploadResult (page (snd (submitYoutubeUpload m))) in
  let failed text := Some {| success := false; message := text; result_url := None |} in
  (forall body,
     fetch_upload payload = inr {| ok := false; json := inr body |} ->
     shown = failed match body_error body with
                    | Some e => e
                    | None => `"Unable to upload video."
                    end)
  /\ (forall text, fetch_upload payload = inl (Error text) -> shown = failed text)
  /\ (fetch_upload payload = inl NotAnError -> shown = failed `"YouTube upload failed.").
Proof.
  intros E B. cbv zeta. rewrite (run_submit m E). cbv zeta. rewrite B.
  split; [|split]; intros; match goal with X : fetch_upload _ = _ |- _ => rewrite X end;
    reflexivity.
Qed.

End Submit.

(** ** More on the server route *)

Lemma required_spec (v : option Route.json) (text : string) :
  (exists x, v = Some x /\ Route.truthy v = true /\ Route.required v text = inr x)
  \/ (Route.truthy v = false /\ Route.required v text = Route.raise text).
Proof.
  unfold Route.required. destruct v as [x|]; [|right; split; reflexivity].
  destruct (Route.truthy (Some x)) eqn:T.
  - left. exists x. auto.
  - right. auto.
Qed.

Ltac required_split :=
  match goal with
  | |- context [Route.required ?v ?t] =>
      destruct (required_spec v t) as [[? [? [? ->]]] | [? ->]];
      cbn [Route.and_then]
  end.

Lemma field_truthy_object (data : Route.json) (key : jsstring) :
  Route.truthy (Route.field data key) = true ->
  negb (Route.truthy (Some data)) || negb (Route.typeof_object data) = false.
Proof. destruct data; cbn; try discriminate; reflexivity. Qed.

Section RouteMore.
Import Route.
Context {node : Node}.

(** What [parseBody] returns are the fields of the body. *)
Lemma parseBody_fields (data : json) (payload : UploadRequest) :
  parseBody data = inr payload ->
  field data `"videoBase64" = Some (videoBase64 payload)
  /\ field data `"title" = Some (title payload)
  /\ field data `"description" = Some (description payload)
  /\ field data `"clientId" = Some (clientId payload)
  /\ field data `"clientSecret" = Some (clientSecret payload)
  /\ field data `"refreshToken" = Some (refreshToken payload)
  /\ tags payload = default_to (JArray []) (field data `"tags")
  /\ privacyStatus payload
     = default_to (JString `"private") (field data `"privacyStatus").
Proof.
  unfold parseBody. destruct (_ || _); [discriminate|].
  repeat required_split; try discriminate.
  intros E; injection E as <-. cbn. repeat split; assumption.
Qed.

(** X18: [parseBody] accepts a body exactly when videoBase64, title,
    description, clientId, clientSecret and refreshToken are all there
    and truthy: a field that is present but empty, null, 0 or false is
    refused like a missing one.  What it returns are the fields of the
    body, with tags defaulting to the empty array and privacyStatus to
    "private" when the body has none. *)
Theorem parseBody_accepts_iff (data : json) :
  ((exists payload, parseBody data = inr payload)
   <-> Forall (fun key => truthy (field data key) = true) Spec.required_fields)
  /\ (forall payload,
        parseBody data = inr payload ->
        field data `"videoBase64" = Some (videoBase64 payload)
        /\ field data `"title" = Some (title payload)
        /\ field data `"description" = Some (description payload)
        /\ field data `"clientId" = Some (clientId payload)
        /\ field data `"clientSecret" = Some (clientSecret payload)
        /\ field data `"refreshToken" = Some (refreshToken payload)
        /\ tags payload = default_to (JArray []) (field data `"tags")
        /\ privacyStatus payload
           = default_to (JString `"private") (field data `"privacyStatus")).
Proof.
  split; [split|].
  - intros [payload E]. revert E. unfold parseBody, Spec.required_fields.
    destruct (_ || _); [discriminate|].
    repeat required_split; try discriminate. intros _.
    repeat (constructor; [assumption|]). constructor.
  - unfold Spec.required_fields. intros F.
    repeat (apply Forall_cons_iff in F; destruct F as [? F]).
    unfold parseBody. rewrite (field_truthy_object data `"videoBase64") by assumption.
    repeat required_split; try congruence. eexists; reflexivity.
  - apply parseBody_fields.
Qed.

(** X19: the checks of [parseBody] are made in a fixed order, and the
    first that fails gives the message: a body that is no object,
    then the video, the title, the description, and the three
    credentials together. *)
Theorem parseBody_first_failure (data : json) :
  (negb (truthy (Some data)) || negb (typeof_object data) = true ->
   parseBody data = raise "Invalid payload.")
  /\ (negb (truthy (Some data)) || negb (typeof_object data) = false ->
      let present key := truthy (field data key) in
      (present `"videoBase64" = false ->
       parseBody data = raise "Missing video payload.")
      /\ (present `"videoBase64" = true -> present `"title" = false ->
          parseBody data = raise "Missing title.")
      /\ (present `"videoBase64" = true -> present `"title" = true ->
          present `"description" = false ->
          parseBody data = raise "Missing description.")
      /\ (present `"videoBase64" = true -> present `"title" = true ->
          present `"description" = true ->
          present `"clientId" && present `"clientSecret" && present `"refreshToken"
          = false ->
          parseBody data = raise "OAuth credentials are required.")).
Proof.
  split.
  - intros G. unfold parseBody. rewrite G. reflexivity.
  - intros G. cbv zeta. unfold parseBody. rewrite G.
    repeat split; intros; repeat required_split; try congruence;
      try reflexivity;
      repeat match goal with
             | X : truthy ?v = true, Y : context [truthy ?v] |- _ =>
                 rewrite X in Y
             end; discriminate.
Qed.

(** X20: the size check is on the decoded bytes: a decoded video of up
    to 256 * 1024 * 1024 bytes, that size included, is passed on as it
    is, and a larger one is refused with the size-limit message; a
    failure of the decoder is passed on. *)
Theorem decodeVideo_limit (encoded : json) :
  (forall buffer,
     buffer_from_base64 encoded = inr buffer ->
     (decodeVideo encoded = inr buffer
      <-> (N.of_nat (List.length buffer) <= 268435456)%N)
     /\ (decodeVideo encoded = inl (Error Spec.size_limit_message)
         <-> (268435456 < N.of_nat (List.length buffer))%N))
  /\ (forall e, buffer_from_base64 encoded = inl e -> decodeVideo encoded = inl e).
Proof.
  split.
  - intros buffer E. unfold decodeVideo. rewrite E.
    replace (MAX_UPLOAD_SIZE_MB * (1024 * 1024))%N with 268435456%N by reflexivity.
    destruct (N.ltb_spec 268435456 (N.of_nat (List.length buffer))) as [L|L].
    + split; (split; [intros X | intros Y]);
        try discriminate X; try lia; reflexivity.
    + split; (split; [intros X | intros Y]);
        try discriminate X; try lia; reflexivity.
  - intros e E. unfold decodeVideo. rewrite E. reflexivity.
Qed.

Lemma run_POST (request_json : thrown + json) :
  let rejected e log :=
    ({| status := 400;
        body := ErrorBody (message_or e `"Unknown error occurred.") |},
     log ++ [ConsoleError `"YouTube upload failed" e]) in
  POST request_json
  = match prepare request_json with
    | inl e => rejected e []
    | inr call =>
        match videos_insert call with
        | inl e => rejected e [VideosInsert call]
        | inr videoId =>
            ({| status := 200;
                body :=
                  VideoBody videoId
                    match videoId with
                    | Some i =>
                        if Js.truthy i
                        then Some (`"https://www.youtube.com/watch?v=" ++ i)
                        else None
                    | None => None
                    end |},
             [VideosInsert call])
        end
    end.
Proof.
  cbv zeta. unfold POST, upload.
  destruct (prepare request_json) as [e|call]; [reflexivity|].
  destruct (videos_insert call); reflexivity.
Qed.

(** X21: the route answers 200 or 400 and calls the upload service at
    most once.  It answers 200 exactly when the request passed every
    check and the service returned; then nothing is logged as an error.
    Every other request is answered 400 with an error body, and exactly
    one error is logged. *)
Theorem POST_status_dichotomy (request_json : thrown + json) :
  let response := fst (POST request_json) in
  let log := snd (POST request_json) in
  (status response = 200%Z \/ status response = 400%Z)
  /\ List.length (Spec.insert_calls log) <= 1
  /\ (status response = 200%Z
      <-> exists call videoId,
            prepare request_json = inr call /\ videos_insert call = inr videoId)
  /\ (status response = 200%Z ->
      Spec.console_errors log = []
      /\ exists videoId videoUrl, body response = VideoBody videoId videoUrl)
  /\ (status response = 400%Z ->
      exists e,
        Spec.console_errors log = [e]
        /\ body response = ErrorBody (message_or e `"Unknown error occurred.")).
Proof.
  cbv zeta. rewrite run_POST. cbv zeta.
  destruct (prepare request_json) as [e|call];
    [|destruct (videos_insert call) as [e|videoId] eqn:V];
    cbn [fst snd status body].
  - split; [right; reflexivity|]. split; [cbn; lia|]. split; [|split].
    + split; [discriminate|]. intros [? [? [X _]]]. discriminate X.
    + discriminate.
    + intros _. exists e. split; reflexivity.
  - split; [right; reflexivity|]. split; [cbn; lia|]. split; [|split].
    + split; [discriminate|]. intros [? [? [X Y]]].
      injection X as <-. rewrite V in Y. discriminate Y.
    + discriminate.
    + intros _. exists e. split; reflexivity.
  - split; [left; reflexivity|]. split; [cbn; lia|]. split; [|split].
    + split; [intros _|reflexivity]. exists call, videoId. auto.
    + intros _. split; [reflexivity|]. eexists; eexists; reflexivity.
    + discriminate.
Qed.

(** X22: a 200 answer carries the id the service gave, and the watch
    URL built from it exactly when that id is a non-empty string; for
    a missing or empty id the URL is left out. *)
Theorem POST_video_url (request_json : thrown + json) (call : InsertCall)
    (videoId : option jsstring) :
  prepare request_json = inr call ->
  videos_insert call = inr videoId ->
  exists videoUrl,
    fst (POST request_json)
    = {| status := 200; body := VideoBody videoId videoUrl |}
    /\ (forall u,
          videoUrl = Some u
          <-> exists i,
                videoId = Some i /\ i <> []
                /\ u = `"https://www.youtube.com/watch?v=" ++ i)
    /\ (videoId = None \/ videoId = Some [] -> videoUrl = None).
Proof.
  intros P V. rewrite run_POST. cbv zeta. rewrite P, V.
  eexists. split; [reflexivity|]. split.
  - intros u. destruct videoId as [[|c i]|]; cbn.
    + split; [discriminate|]. intros [? [X [Y _]]]. injection X as <-. contradiction.
    + split.
      * intros X; injection X as <-. eexists. split; [reflexivity|].
        split; [discriminate | reflexivity].
      * intros [? [X [_ ->]]]. injection X as <-. reflexivity.
    + split; [discriminate|]. intros [? [X _]]. discriminate X.
  - intros [->| ->]; reflexivity.
Qed.

(** X23: what reaches the upload service are the fields of the body:
    the three credentials, the title and the description as sent, the
    decoded video, never more than 256 MB, and of an array of tags the
    first 500 at most (the empty array when the body has no tags).  The
    privacy status is "private" when the body has none or null, and
    otherwise whatever the body holds, unchecked. *)
Theorem prepare_forwards_body (data : json) (call : InsertCall) :
  prepare (inr data) = inr call ->
  field data `"clientId" = Some (auth_clientId call)
  /\ field data `"clientSecret" = Some (auth_clientSecret call)
  /\ field data `"refreshToken" = Some (auth_refreshToken call)
  /\ field data `"title" = Some (snippet_title call)
  /\ field data `"description" = Some (snippet_description call)
  /\ (exists encoded,
        field data `"videoBase64" = Some encoded
        /\ buffer_from_base64 encoded = inr (media_body call))
  /\ (N.of_nat (List.length (media_body call)) <= 268435456)%N
  /\ (field data `"tags" = None -> snippet_tags call = Some (JArray []))
  /\ (forall items,
        field data `"tags" = Some (JArray items) ->
        snippet_tags call = Some (JArray (firstn 500 items))
        /\ List.length (firstn 500 items) <= 500)
  /\ (field data `"privacyStatus" = None
      \/ field data `"privacyStatus" = Some JNull ->
      status_privacyStatus call = JString `"private")
  /\ (forall v,
        field data `"privacyStatus" = Some (JString v) ->
        status_privacyStatus call = JString v).
Proof.
  unfold prepare. cbn [and_then].
  destruct (parseBody data) as [e|payload] eqn:P; [discriminate|].
  cbn [and_then].
  destruct (parseBody_fields data P) as [F1 [F2 [F3 [F4 [F5 [F6 [F7 F8]]]]]]].
  destruct (decodeVideo (videoBase64 payload)) as [e|buffer] eqn:D; [discriminate|].
  cbn [and_then].
  destruct (slice_tags (tags payload)) as [e|sliced] eqn:S; [discriminate|].
  cbn [and_then]. intros E; injection E as <-.
  cbn [auth_clientId auth_clientSecret auth_refreshToken snippet_title
       snippet_description snippet_tags status_privacyStatus media_body].
  assert (B : buffer_from_base64 (videoBase64 payload) = inr buffer
              /\ (N.of_nat (List.length buffer) <= 268435456)%N).
  { revert D. unfold decodeVideo.
    destruct (buffer_from_base64 (videoBase64 payload)) as [e|b]; [discriminate|].
    replace (MAX_UPLOAD_SIZE_MB * (1024 * 1024))%N with 268435456%N by reflexivity.
    destruct (N.ltb_spec 268435456 (N.of_nat (List.length b))); [discriminate|].
    intros X; injection X as <-. auto. }
  destruct B as [B1 B2].
  repeat (split; [assumption|]).
  split; [exists (videoBase64 payload); auto|]. split; [assumption|].
  split; [|split; [|split]].
  - intros T. rewrite T in F7. cbn in F7. rewrite F7 in S.
    injection S as <-. reflexivity.
  - intros items T. rewrite T in F7. cbn in F7. rewrite F7 in S.
    injection S as <-. split; [reflexivity | apply firstn_le_length].
  - intros [T|T]; rewrite T in F8; cbn in F8; rewrite F8; reflexivity.
  - intros v T. rewrite T in F8. cbn in F8. rewrite F8. reflexivity.
Qed.

End RouteMore.

(** ** The page and the route together *)

Lemma parseBody_payload_json (p : UploadPayload) :
  let form := payload_form p in
  Route.parseBody (Wire.payload_json p)
  = if negb (truthy (videoBase64 p)) then Route.raise "Missing video payload."
    else if negb (truthy (form_title form)) then Route.raise "Missing title."
    else if negb (truthy (description form)) then Route.raise "Missing description."
    else if negb (truthy (clientId form) && truthy (clientSecret form)
                  && truthy (refreshToken form))
    then Route.raise "OAuth credentials are required."
    else inr {| Route.videoBase64 := Route.JString (videoBase64 p);
                Route.title := Route.JString (form_title form);
                Route.description := Route.JString (description form);
                Route.tags := Route.JArray (map Route.JString (tags form));
                Route.privacyStatus := Route.JString (privacyStatus form);
                Route.clientId := Route.JString (clientId form);
                Route.clientSecret := Route.JString (clientSecret form);
                Route.refreshToken := Route.JString (refreshToken form) |}.
Proof.
  destruct p as [[t d tg pr ci cs rt st] v]. cbv zeta.
  cbn [payload_form videoBase64 form_title description clientId clientSecret
       refreshToken tags privacyStatus].
  destruct v, t, d, ci, cs, rt; reflexivity.
Qed.

(** X24: the page and the route agree on what can be published: the
    route accepts the body the page sends exactly when the readiness
    predicate of the page holds for the form and the encoded video is
    not empty. *)
Theorem route_accepts_what_page_allows (form : YoutubeFormState)
    (encoded : jsstring) :
  (exists request,
     Route.parseBody
       (Wire.payload_json {| payload_form := form; videoBase64 := encoded |})
     = inr request)
  <-> isYoutubeFormValid form true = true /\ encoded <> [].
Proof.
  rewrite parseBody_payload_json. cbv zeta. cbn [payload_form videoBase64].
  unfold isYoutubeFormValid. rewrite <- truthy_iff.
  destruct (truthy encoded), (truthy (form_title form)), (truthy (description form)),
    (truthy (clientId form)), (truthy (clientSecret form)),
    (truthy (refreshToken form)); cbn;
    (split; [intros [? X]; try discriminate X; auto
            | intros [X Y]; try discriminate X; try discriminate Y;
              eexists; reflexivity]).
Qed.

Section EndToEnd.
Context {H : Host} {node : Route.Node}.

(** X25: the whole publish path, with the route behind [fetch].  A form
    that is not ready is refused by the route: the page shows the
    message of the route and the upload service is not called.  A ready
    form with a video within the size limit, on a service that accepts
    and gives a non-empty id, ends with a success that links to the
    watch URL of that id. *)
Theorem publish_end_to_end (m : Machine) (artifact : Blob) (encoded : jsstring) :
  videoBlob (page m) = Some artifact ->
  @blobToBase64 H artifact = inr encoded ->
  let payload := {| payload_form := youtubeForm (page m); videoBase64 := encoded |} in
  let shown := uploadResult (page (snd (@submitYoutubeUpload (Wire.served H node) m))) in
  (isYoutubeFormValid (youtubeForm (page m)) true = false ->
   exists text,
     Route.parseBody (Wire.payload_json payload) = inl (Error text)
     /\ shown = Some {| success := false; message := text; result_url := None |}
     /\ Spec.calls_upload_service
          (snd (@Route.POST node (inr (Wire.payload_json payload)))) = false)
  /\ (isYoutubeFormValid (youtubeForm (page m)) true = true ->
      forall buffer videoId,
        Route.buffer_from_base64 (Route.JString encoded) = inr buffer ->
        (N.of_nat (List.length buffer) <= 268435456)%N ->
        (forall call, Route.videos_insert call = inr (Some videoId)) ->
        videoId <> [] ->
        shown = Some {| success := true;
                        message := `"Video uploaded successfully.";
                        result_url :=
                          Some (`"https://www.youtube.com/watch?v=" ++ videoId) |}).
Proof.
  intros E B. cbv zeta.
  rewrite (@run_submit (Wire.served H node) m artifact E). cbv zeta.
  change (@blobToBase64 (Wire.served H node) artifact)
    with (@blobToBase64 H artifact).
  rewrite B.
  change (@fetch_upload (Wire.served H node) ?p)
    with (@inr thrown Response
            (Wire.response_of (fst (@Route.POST node (inr (Wire.payload_json p)))))).
  cbv iota beta.
  pose proof (blobToBase64_nonempty _ B) as NE. apply truthy_iff in NE.
  set (payload := {| payload_form := youtubeForm (page m); videoBase64 := encoded |}).
  pose proof (parseBody_payload_json payload) as P. cbv zeta in P.
  cbn [payload payload_form videoBase64] in P. rewrite NE in P. cbn [negb] in P.
  split.
  - intros V. unfold isYoutubeFormValid in V. cbn [andb] in V.
    assert (X : exists text, Route.parseBody (Wire.payload_json payload)
                             = inl (Error text)).
    { rewrite P.
      destruct (truthy (clientId (youtubeForm (page m)))),
        (truthy (clientSecret (youtubeForm (page m)))),
        (truthy (refreshToken (youtubeForm (page m)))),
        (truthy (form_title (youtubeForm (page m)))),
        (truthy (description (youtubeForm (page m))));
        try discriminate V; cbn; eexists; reflexivity. }
    destruct X as [text X]. exists text. split; [exact X|].
    unfold Route.POST, Route.upload, Route.prepare. cbn [Route.and_then].
    rewrite X. cbn. split; reflexivity.
  - intros V buffer videoId D L S NI.
    unfold isYoutubeFormValid in V. cbn [andb] in V.
    repeat (apply andb_true_iff in V; destruct V as [V ?]).
    repeat match goal with
           | X : truthy _ = true |- _ => rewrite X in P; clear X
           end.
    cbn [negb andb] in P.
    unfold Route.POST, Route.upload, Route.prepare. cbn [Route.and_then].
    rewrite P. cbn [Route.and_then Route.videoBase64].
    unfold Route.decodeVideo. rewrite D.
    replace (Route.MAX_UPLOAD_SIZE_MB * (1024 * 1024))%N with 268435456%N
      by reflexivity.
    destruct (N.ltb_spec 268435456 (N.of_nat (List.length buffer))); [lia|].
    cbn [Route.and_then Route.tags Route.slice_tags]. rewrite S.
    apply truthy_iff in NI. rewrite NI. reflexivity.
Qed.

End EndToEnd.

(** ** Concrete runs of the further properties *)

Lemma youtubeChange_get_set_witness :
  KTitle <> KTags
  /\ Spec.get_field KTitle (youtubeChange KTitle `"New title" Demo.ready_form)
     = `"New title"
  /\ Spec.get_field KClientId (youtubeChange KTitle `"New title" Demo.ready_form)
     = `"id".
Proof.
  assert (N : KTitle <> KTags) by discriminate.
  split; [exact N|]. split.
  - apply (proj1 (youtubeChange_get_set `"New title" Demo.ready_form N) KTitle).
  - apply (proj1 (youtubeChange_get_set `"New title" Demo.ready_form N) KClientId).
Defined.

Lemma handleRemoveScene_removes_id_witness :
  Spec.identifies `"ghost" (scenes Demo.rendered) = false
  /\ scenes (page (snd (handleRemoveScene `"ghost" (Demo.start Demo.rendered))))
     = scenes Demo.rendered.
Proof.
  split; [reflexivity|].
  apply (proj1 (proj2 (proj2 (proj2
           (handleRemoveScene_removes_id `"ghost" (Demo.start Demo.rendered)))))).
  reflexivity.
Defined.

Lemma duplicate_then_remove_witness :
  Spec.identifies (@fresh_id Demo.host 0) (scenes Demo.rendered) = false
  /\ page (snd (handleRemoveScene (@fresh_id Demo.host 0)
                  (snd (@handleDuplicateScene Demo.host Demo.ghost
                          (Demo.start Demo.rendered)))))
     = Demo.rendered.
Proof.
  split; [reflexivity|].
  apply (@duplicate_then_remove Demo.host Demo.ghost (Demo.start Demo.rendered)).
  reflexivity.
Defined.

Lemma totalRuntime_bounds_witness :
  Forall (fun scene => minDuration <= duration scene <= maxDuration)%Z
    [Demo.intro; Demo.ghost]
  /\ totalRuntime [Demo.intro; Demo.ghost] = 11%Z.
Proof.
  assert (F : Forall (fun scene => minDuration <= duration scene <= maxDuration)%Z
                [Demo.intro; Demo.ghost]).
  { repeat constructor; cbn; unfold minDuration, maxDuration; lia. }
  split; [exact F|].
  apply (proj1 (proj2 (totalRuntime_bounds [Demo.intro; Demo.ghost]) F)).
Defined.

Lemma demo_ids_unique : @Spec.unique_ids Demo.host.
Proof.
  intros j k E.
  change (`"scene-" ++ [(48 + N.of_nat j)%N] = `"scene-" ++ [(48 + N.of_nat k)%N]) in E.
  apply app_inv_head in E.
  assert (X : (48 + N.of_nat j = 48 + N.of_nat k)%N) by congruence.
  apply N.add_cancel_l in X. apply Nat2N.inj in X. exact X.
Qed.

Lemma scene_ids_stay_unique_witness :
  @Spec.unique_ids Demo.host
  /\ @Spec.store_ok Demo.host
       (snd (@handleAddScene Demo.host
               (snd (@regenerateScenes Demo.host (Demo.start Demo.rendered))))).
Proof.
  split; [exact demo_ids_unique|].
  destruct (@scene_ids_stay_unique Demo.host demo_ids_unique) as [R [A _]].
  apply A. apply R.
Defined.

Lemma updateScene_patches_matching_witness :
  let retitle :=
    {| patch_id := None; patch_title := Some `"Opening"; patch_narration := None;
       patch_duration := None; patch_gradient := None; patch_emphasis := None |} in
  patch_duration retitle = None
  /\ totalRuntime (scenes (page (snd (updateScene `"intro" retitle
                                        (Demo.start Demo.rendered)))))
     = totalRuntime (scenes Demo.rendered).
Proof.
  cbv zeta. split; [reflexivity|].
  apply (proj2 (proj2 (proj2 (proj2 (proj2 (proj2
           (updateScene_patches_matching `"intro" _ (Demo.start Demo.rendered)))))))).
  reflexivity.
Defined.

Lemma handleAudioUpload_first_file_witness :
  backgroundAudio Demo.with_audio <> None
  /\ backgroundAudio
       (page (snd (handleAudioUpload (Some []) (Demo.start Demo.with_audio))))
     <> None.
Proof.
  assert (N : backgroundAudio Demo.with_audio <> None) by discriminate.
  split; [exact N|].
  apply (proj1 (proj2 (proj2
           (@handleAudioUpload_first_file Demo.host (Some [])
              (Demo.start Demo.with_audio))))).
  exact N.
Defined.

Lemma beginGeneration_failure_witness :
  (exists error,
     @generate Demo.failing_host
       {| comp_scenes := scenes Demo.rendered; width := 1280; height := 720;
          fps := 30; comp_backgroundAudio := backgroundAudio Demo.rendered |}
     = inl error)
  /\ submitDisabled
       (page (snd (@beginGeneration Demo.failing_host (Demo.start Demo.rendered))))
     = true.
Proof.
  assert (F : exists error,
            @generate Demo.failing_host
              {| comp_scenes := scenes Demo.rendered; width := 1280; height := 720;
                 fps := 30; comp_backgroundAudio := backgroundAudio Demo.rendered |}
            = inl error).
  { eexists. reflexivity. }
  split; [exact F|].
  apply (proj2 (proj2 (proj2 (proj2 (proj2
           (@beginGeneration_failure_blocks_submit Demo.failing_host
              (Demo.start Demo.rendered)))))) F).
Defined.

Lemma blobToBase64_payload_witness :
  @readAsDataURL Demo.host [Byte.x00]
  = inr (`"data:video/mp4;base64" ++ comma :: `"AAAA" ++ [])
  /\ ~ In comma `"data:video/mp4;base64"
  /\ ~ In comma `"AAAA"
  /\ `"AAAA" <> []
  /\ @blobToBase64 Demo.host [Byte.x00] = inr `"AAAA".
Proof.
  assert (NH : ~ In comma `"data:video/mp4;base64").
  { intros I. vm_compute in I. repeat (destruct I as [I|I]; [discriminate I|]).
    exact I. }
  assert (NE : ~ In comma `"AAAA").
  { intros I. vm_compute in I. repeat (destruct I as [I|I]; [discriminate I|]).
    exact I. }
  assert (T : `"AAAA" <> []) by discriminate.
  split; [reflexivity|]. split; [exact NH|]. split; [exact NE|]. split; [exact T|].
  apply (proj1 (@blobToBase64_payload Demo.host [Byte.x00])
               `"data:video/mp4;base64" `"AAAA" [] eq_refl NH NE T).
  left. reflexivity.
Defined.

Lemma submit_sends_at_most_one_request_witness :
  exists sent,
    Spec.requests
      (trace (snd (@submitYoutubeUpload Demo.host (Demo.start Demo.rendered))))
    = [] ++ sent
    /\ List.length sent <= 1.
Proof.
  destruct (@submit_sends_at_most_one_request Demo.host (Demo.start Demo.rendered))
    as [sent [A [B _]]].
  exists sent. split; assumption.
Defined.

Lemma submit_always_settles_witness :
  videoBlob Demo.rendered = Some [Byte.x00]
  /\ isUploading
       (page (snd (@submitYoutubeUpload Demo.host (Demo.start Demo.rendered))))
     = false.
Proof.
  split; [reflexivity|].
  apply (proj2 (proj2 (proj2 (proj2
           (@submit_always_settles Demo.host (Demo.start Demo.rendered)))))
           [Byte.x00] eq_refl).
Defined.

Lemma submit_failure_message_witness :
  videoBlob Demo.rendered = Some [Byte.x00]
  /\ @blobToBase64 Demo.host [Byte.x00] = inr `"AAAA"
  /\ uploadResult
       (page (snd (@submitYoutubeUpload Demo.host (Demo.start Demo.rendered))))
     = Some {| success := false; message := `"OAuth credentials are required.";
               result_url := None |}.
Proof.
  split; [reflexivity|]. split; [reflexivity|].
  apply (proj1 (@submit_failure_message Demo.host (Demo.start Demo.rendered)
                  [Byte.x00] `"AAAA" eq_refl eq_refl)
               {| body_error := Some `"OAuth credentials are required.";
                  body_videoUrl := None |}).
  reflexivity.
Defined.

Lemma parseBody_accepts_iff_witness :
  Forall (fun key => Route.truthy (Route.field Demo.complete_body key) = true)
    Spec.required_fields
  /\ exists payload, Route.parseBody Demo.complete_body = inr payload.
Proof.
  assert (F : Forall (fun key => Route.truthy (Route.field Demo.complete_body key) = true)
                Spec.required_fields).
  { repeat constructor. }
  split; [exact F|].
  apply (proj2 (proj1 (parseBody_accepts_iff Demo.complete_body)) F).
Defined.

Lemma parseBody_first_failure_witness :
  Route.truthy (Route.field Demo.untitled_body `"videoBase64") = true
  /\ Route.truthy (Route.field Demo.untitled_body `"title") = false
  /\ Route.parseBody Demo.untitled_body = Route.raise "Missing title.".
Proof.
  split; [reflexivity|]. split; [reflexivity|].
  apply (proj1 (proj2 (proj2 (parseBody_first_failure Demo.untitled_body) eq_refl)));
    reflexivity.
Defined.

Lemma decodeVideo_limit_witness :
  @Route.buffer_from_base64 Demo.light_node (Route.JString `"AAAA")
  = inr [Byte.x00; Byte.x00; Byte.x00]
  /\ @Route.decodeVideo Demo.light_node (Route.JString `"AAAA")
     = inr [Byte.x00; Byte.x00; Byte.x00].
Proof.
  split; [reflexivity|].
  apply (proj1 (@decodeVideo_limit Demo.light_node (Route.JString `"AAAA"))
               [Byte.x00; Byte.x00; Byte.x00] eq_refl).
  cbn. lia.
Defined.

Lemma POST_status_dichotomy_witness :
  Route.status (fst (@Route.POST Demo.light_node (inr Demo.untitled_body))) = 400%Z
  /\ exists e,
       Spec.console_errors (snd (@Route.POST Demo.light_node (inr Demo.untitled_body)))
       = [e].
Proof.
  assert (S : Route.status (fst (@Route.POST Demo.light_node (inr Demo.untitled_body)))
              = 400%Z) by reflexivity.
  split; [exact S|].
  destruct (proj2 (proj2 (proj2 (proj2
              (@POST_status_dichotomy Demo.light_node (inr Demo.untitled_body))))) S)
    as [e [A _]].
  exists e. exact A.
Defined.

Lemma POST_video_url_witness :
  exists call videoUrl,
    @Route.prepare Demo.light_node (inr Demo.complete_body) = inr call
    /\ @Route.videos_insert Demo.light_node call = inr (Some `"abc123")
    /\ fst (@Route.POST Demo.light_node (inr Demo.complete_body))
       = {| Route.status := 200;
            Route.body := Route.VideoBody (Some `"abc123") videoUrl |}.
Proof.
  eexists.
  assert (P : @Route.prepare Demo.light_node (inr Demo.complete_body) = inr _)
    by reflexivity.
  destruct (@POST_video_url Demo.light_node (inr Demo.complete_body) _
              (Some `"abc123") P eq_refl) as [videoUrl [A _]].
  exists videoUrl. split; [exact P|]. split; [reflexivity | exact A].
Defined.

Lemma prepare_forwards_body_witness :
  exists call,
    @Route.prepare Demo.light_node (inr Demo.complete_body) = inr call
    /\ Route.field Demo.complete_body `"clientId" = Some (Route.auth_clientId call).
Proof.
  eexists.
  assert (P : @Route.prepare Demo.light_node (inr Demo.complete_body) = inr _)
    by reflexivity.
  split; [exact P|].
  apply (proj1 (@prepare_forwards_body Demo.light_node Demo.complete_body _ P)).
Defined.

Lemma route_accepts_what_page_allows_witness :
  (isYoutubeFormValid Demo.ready_form true = true /\ `"AAAA" <> [])
  /\ exists request,
       Route.parseBody
         (Wire.payload_json {| payload_form := Demo.ready_form;
                               videoBase64 := `"AAAA" |})
       = inr request.
Proof.
  assert (V : isYoutubeFormValid Demo.ready_form true = true /\ `"AAAA" <> []).
  { split; [reflexivity | discriminate]. }
  split; [exact V|].
  apply (proj2 (route_accepts_what_page_allows Demo.ready_form `"AAAA") V).
Defined.

Lemma publish_end_to_end_witness :
  videoBlob Demo.ready = Some [Byte.x00]
  /\ @blobToBase64 Demo.host [Byte.x00] = inr `"AAAA"
  /\ isYoutubeFormValid (youtubeForm Demo.ready) true = true
  /\ uploadResult
       (page (snd (@submitYoutubeUpload (Wire.served Demo.host Demo.light_node)
                     (Demo.start Demo.ready))))
     = Some {| success := true;
               message := `"Video uploaded successfully.";
               result_url := Some (`"https://www.youtube.com/watch?v=" ++ `"abc123") |}.
Proof.
  split; [reflexivity|]. split; [reflexivity|]. split; [reflexivity|].
  apply (proj2 (@publish_end_to_end Demo.host Demo.light_node (Demo.start Demo.ready)
                  [Byte.x00] `"AAAA" eq_refl eq_refl)
               eq_refl [Byte.x00; Byte.x00; Byte.x00] `"abc123" eq_refl).
  - cbn. lia.
  - intros call. reflexivity.
  - discriminate.
Defined.
